(** * Rental CRM: pricing, fines and the rental lifecycle

    A shallow embedding of the rule engine of the car-rental application:
    - [rental_app/patterns/pricing_strategy.py]  (pricing strategies),
    - [rental_app/patterns/fine_calculator.py]   (fines and deposit refund),
    - [rental_app/patterns/rental_factory.py]    (deposit, creation, date check),
    - [rental_app/services/rental_service.py]    (status sweep, completion),
    over the records of [rental_app/models.py].

    Conventions of the embedding.
    - [Decimal] is Python's [decimal.Decimal] restricted to finite numbers
      whose exponent is not positive, which is all the code ever builds
      (database fields with two places, [Decimal(str(int))], literals).
      Arithmetic is exact: the default context rounds to 28 significant
      digits, and the pricing path is shown below to stay under that for
      every price a [DecimalField] of [max_digits=10] can hold.
    - [date] is the proleptic Gregorian ordinal of a [datetime.date]
      ([date.toordinal()]), between [MINORDINAL] and [MAXORDINAL]; date
      arithmetic that leaves the range raises [OverflowError].
    - [date.today()] is the explicit parameter [today], read once per
      operation.
    - The ORM is a record of tables. A row is written in the format of
      its columns: every [DecimalField] of [models.py] has
      [max_digits=10, decimal_places=2], so an amount is rounded half-even
      to two places on its way into the table and refused with
      [InvalidOperation] when it then needs more than ten digits; an
      integer that does not fit the 64-bit integer column is refused with
      [OverflowError]. The object the code holds keeps the amount it was
      given. An operation on the store is a function that returns its
      outcome and the store it leaves.
    - Records carry the fields the rule engine reads or writes. Where two
      models share a field name the car's is prefixed: [Car.year] is
      [car_year], [Car.status] is [car_status]. *)

From Stdlib Require Import ZArith QArith Qminmax Lia Lqa.
From stdpp Require Import gmap strings list fin_maps sorting.

Close Scope Q_scope.
Open Scope Z_scope.

(** ** Decimal numbers *)

Module Dec.

Record Decimal : Type := mkDecimal {
  coeff : Z;    (* signed coefficient *)
  scale : nat   (* digits after the point: the exponent is [- scale] *)
}.

Definition pow10 (n : nat) : Z := 10 ^ Z.of_nat n.

(** The number a [Decimal] denotes. *)
Definition dval (d : Decimal) : Q :=
  (inject_Z (coeff d) / inject_Z (pow10 (scale d)))%Q.

(** [Decimal(str(n))] for an [int] n. *)
Definition of_int (n : Z) : Decimal := mkDecimal n 0.

(** [a * b]: coefficients multiply, exponents add. *)
Definition mul (a b : Decimal) : Decimal :=
  mkDecimal (coeff a * coeff b) (scale a + scale b).

(** The coefficient of [a] once written with [s >= scale a] places. *)
Definition rescale (s : nat) (a : Decimal) : Z :=
  coeff a * pow10 (s - scale a).

(** [a + b] and [a - b]: the result takes the smaller exponent. *)
Definition add (a b : Decimal) : Decimal :=
  let s := Nat.max (scale a) (scale b) in
  mkDecimal (rescale s a + rescale s b) s.

Definition sub (a b : Decimal) : Decimal :=
  let s := Nat.max (scale a) (scale b) in
  mkDecimal (rescale s a - rescale s b) s.

(** Comparisons are by value. *)
Definition ltb (a b : Decimal) : bool :=
  coeff a * pow10 (scale b) <? coeff b * pow10 (scale a).

(** [d > 0] against the [int] zero. *)
Definition is_positive (d : Decimal) : bool := 0 <? coeff d.

(** Python's builtin [max(a, b)]: [b] only when it is strictly greater. *)
Definition max (a b : Decimal) : Decimal := if ltb a b then b else a.

(** [d.quantize(Decimal('0.01'))] under [ROUND_HALF_EVEN], the rounding
    of the decimal context: [d] written with two places. *)
Definition quantize2 (d : Decimal) : Decimal :=
  if (scale d <=? 2)%nat then mkDecimal (rescale 2 d) 2
  else
    let p := pow10 (scale d - 2) in
    let q := coeff d / p in
    let r := coeff d mod p in
    mkDecimal
      (match 2 * r ?= p with
       | Lt => q
       | Gt => q + 1
       | Eq => if Z.even q then q else q + 1
       end) 2.

End Dec.

Import Dec.

Declare Scope dec_scope.
Delimit Scope dec_scope with dec.
Bind Scope dec_scope with Decimal.
Infix "*" := Dec.mul : dec_scope.
Infix "+" := Dec.add : dec_scope.
Infix "-" := Dec.sub : dec_scope.

(** Decimal literals of the source, [lit c s] for coefficient and places:
    [Decimal('1.2')] is [lit 12 1], [Decimal('500.00')] is [lit 50000 2]. *)
Abbreviation lit := mkDecimal.

(** ** Dates *)

Definition date : Type := Z.

Definition MINORDINAL : Z := 1.         (* date.min = 0001-01-01 *)
Definition MAXORDINAL : Z := 3652059.   (* date.max = 9999-12-31 *)

Definition valid_date (d : date) : Prop := MINORDINAL <= d <= MAXORDINAL.

(** [(b - a).days] *)
Definition days_between (a b : date) : Z := b - a.

(** [d.year], the year part of CPython's [_ord2ymd]. *)
Definition date_year (d : date) : Z :=
  let n := d - 1 in
  let n400 := n / 146097 in
  let n := n mod 146097 in
  let n100 := n / 36524 in
  let n := n mod 36524 in
  let n4 := n / 1461 in
  let n := n mod 1461 in
  let n1 := n / 365 in
  let year := n400 * 400 + 1 + n100 * 100 + n4 * 4 + n1 in
  if (n1 =? 4) || (n100 =? 4) then year - 1 else year.

(** ** Records of [models.py] *)

Inductive CarStatus := available | rented | maintenance | unavailable.

Inductive RentalStatus := pending | active | completed | overdue | cancelled.

Inductive PaymentType := deposit_payment | refund_payment | additional_payment | fine_payment.

#[global] Instance CarStatus_eq_dec : EqDecision CarStatus.
Proof. solve_decision. Defined.

#[global] Instance RentalStatus_eq_dec : EqDecision RentalStatus.
Proof. solve_decision. Defined.

#[global] Instance PaymentType_eq_dec : EqDecision PaymentType.
Proof. solve_decision. Defined.

(** [Car]: the fields the rule engine reads or writes. *)
Record Car : Type := mkCar {
  car_pk : Z;
  car_year : Z;
  daily_price : Decimal;
  car_status : CarStatus
}.

(** [Car.is_available] *)
Definition is_available (car : Car) : bool :=
  bool_decide (car_status car = available).

Definition set_car_status (s : CarStatus) (car : Car) : Car :=
  mkCar (car_pk car) (car_year car) (daily_price car) s.

(** ** Pricing strategies ([pricing_strategy.py]) *)

Inductive PricingStrategy :=
  | StandardPricingStrategy
  | YearBasedPricingStrategy
  | DurationBasedPricingStrategy
  | CombinedPricingStrategy.

(** [CombinedPricingStrategy._calculate_year_multiplier], the number of
    the pair it returns (the other component is a description). *)
Definition _calculate_year_multiplier (age : Z) : Decimal :=
  if age <=? 2 then lit 12 1
  else if age <=? 5 then lit 10 1
  else if age <=? 10 then lit 9 1
  else lit 8 1.

(** [CombinedPricingStrategy._calculate_duration_discount] *)
Definition _calculate_duration_discount (days : Z) : Decimal :=
  if days >=? 30 then lit 15 2
  else if days >=? 14 then lit 10 2
  else if days >=? 7 then lit 5 2
  else lit 0 1.

Section Pricing.

Variable today : date.

Definition calculate_price (strategy : PricingStrategy)
    (car : Car) (start_date end_date : date) : Decimal :=
  let days := days_between start_date end_date + 1 in
  match strategy with
  | StandardPricingStrategy =>
      (daily_price car * of_int days)%dec
  | YearBasedPricingStrategy =>
      let current_year := date_year today in
      let age := current_year - car_year car in
      let multiplier :=
        if age <=? 2 then lit 12 1
        else if age <=? 5 then lit 10 1
        else if age <=? 10 then lit 9 1
        else lit 8 1 in
      (daily_price car * of_int days * multiplier)%dec
  | DurationBasedPricingStrategy =>
      let base_price := (daily_price car * of_int days)%dec in
      let discount :=
        if days >=? 30 then lit 15 2
        else if days >=? 14 then lit 10 2
        else if days >=? 7 then lit 5 2
        else lit 0 1 in
      (base_price * (lit 10 1 - discount))%dec
  | CombinedPricingStrategy =>
      let current_year := date_year today in
      let age := current_year - car_year car in
      let year_multiplier := _calculate_year_multiplier age in
      let duration_discount := _calculate_duration_discount days in
      let base_price := (daily_price car * of_int days * year_multiplier)%dec in
      (base_price * (lit 10 1 - duration_discount))%dec
  end.

End Pricing.

(** [PricingStrategyFactory.STRATEGIES] *)
Definition STRATEGIES : gmap string PricingStrategy :=
  <["standard" := StandardPricingStrategy]>
  (<["year_based" := YearBasedPricingStrategy]>
  (<["duration_based" := DurationBasedPricingStrategy]>
  (<["combined" := CombinedPricingStrategy]> ∅))).

(** [PricingStrategyFactory.create_strategy]: [dict.get] with a default. *)
Definition create_strategy (strategy_type : string) : PricingStrategy :=
  default CombinedPricingStrategy (STRATEGIES !! strategy_type).

Definition get_default_strategy : PricingStrategy := create_strategy "combined".

(** ** Fines ([fine_calculator.py]) *)

(** [Rental] *)
Record Rental : Type := mkRental {
  rental_pk : Z;
  client : Z;                        (* foreign key to ClientProfile *)
  car_id : Z;                        (* foreign key to Car *)
  start_date : date;
  expected_end_date : date;
  actual_end_date : option date;
  deposit : Decimal;
  daily_cost : Decimal;
  total_cost : Decimal;
  status : RentalStatus;
  damage_level : Z;
  late_days : Z
}.

Definition set_status (s : RentalStatus) (r : Rental) : Rental :=
  mkRental (rental_pk r) (client r) (car_id r) (start_date r)
    (expected_end_date r) (actual_end_date r) (deposit r) (daily_cost r)
    (total_cost r) s (damage_level r) (late_days r).

Definition set_total_cost (c : Decimal) (r : Rental) : Rental :=
  mkRental (rental_pk r) (client r) (car_id r) (start_date r)
    (expected_end_date r) (actual_end_date r) (deposit r) (daily_cost r)
    c (status r) (damage_level r) (late_days r).

(** The three assignments [rental.actual_end_date = ...],
    [rental.damage_level = ...], [rental.late_days = ...]. *)
Definition set_return (d : date) (dl ld : Z) (r : Rental) : Rental :=
  mkRental (rental_pk r) (client r) (car_id r) (start_date r)
    (expected_end_date r) (Some d) (deposit r) (daily_cost r)
    (total_cost r) (status r) dl ld.

#[global] Instance Decimal_inhabited : Inhabited Decimal := populate (lit 0 0).

(** [StandardFineStrategy.DAMAGE_MULTIPLIERS] *)
Definition DAMAGE_MULTIPLIERS : gmap Z Decimal :=
  <[0 := lit 0 1]> (<[1 := lit 1 1]> (<[2 := lit 3 1]> (<[3 := lit 5 1]> ∅))).

Definition LATE_FINE_PER_DAY : Decimal := lit 50000 2.

(** [StandardFineStrategy.calculate_damage_fine] *)
Definition calculate_damage_fine (rental : Rental) (damage_level : Z) : Decimal :=
  let damage_level :=
    if bool_decide (DAMAGE_MULTIPLIERS !! damage_level = None) then 0
    else damage_level in
  let multiplier := DAMAGE_MULTIPLIERS !!! damage_level in
  (deposit rental * multiplier)%dec.

(** [StandardFineStrategy.calculate_late_fine] *)
Definition calculate_late_fine (rental : Rental) (late_days : Z) : Decimal :=
  if late_days <=? 0 then lit 0 2
  else (LATE_FINE_PER_DAY * of_int late_days)%dec.

(** [FineCalculator.calculate_total_fines], with the standard strategy
    that [FineCalculator()] installs. *)
Definition calculate_total_fines (rental : Rental) (damage_level late_days : Z)
    : Decimal :=
  let damage_fine := calculate_damage_fine rental damage_level in
  let late_fine := calculate_late_fine rental late_days in
  (damage_fine + late_fine)%dec.

(** [FineCalculator.calculate_refund] *)
Definition calculate_refund (rental : Rental) (total_fines : Decimal) : Decimal :=
  let refund := (deposit rental - total_fines)%dec in
  Dec.max refund (lit 0 2).

(** ** The record store and its operations *)

(** [Fine.reason] is one of two formatted texts. *)
Inductive FineReason :=
  | damage_reason (level : Z)   (* "Пошкодження рівня {damage_level}" *)
  | late_reason (days : Z).     (* "Запізнення на {late_days} днів" *)

Record Fine : Type := mkFine {
  fine_rental : Z;
  reason : FineReason;
  fine_amount : Decimal
}.

Record Payment : Type := mkPayment {
  payment_rental : Z;
  payment_type : PaymentType;
  payment_amount : Decimal
}.

(** The tables: cars and rentals by primary key, fines and payments in
    the order of their creation. *)
Record Store : Type := mkStore {
  cars : gmap Z Car;
  rentals : gmap Z Rental;
  fines : list Fine;
  payments : list Payment
}.

(** The texts of the [ValueError]s and of [validate_rental_dates]. *)
Inductive Message :=
  | msg_empty                      (* "" *)
  | msg_car_unavailable (car : Car) (* "Автомобіль {car} недоступний для оренди" *)
  | msg_start_in_past              (* "Дата початку не може бути в минулому" *)
  | msg_end_not_after_start        (* "Дата закінчення повинна бути після дати початку" *)
  | msg_max_duration (days : Z)    (* "Максимальна тривалість оренди - {max_rental_days} днів" *)
  | msg_min_duration.              (* "Мінімальна тривалість оренди - 1 день" *)

Inductive exn :=
  | ValueError (msg : Message)
  | OverflowError                  (* a date or an integer out of range *)
  | DoesNotExist                   (* a foreign key without its row *)
  | InvalidOperation.              (* a decimal too long for its column *)

Inductive result (A : Type) : Type :=
  | Ok (a : A)
  | Raise (e : exn).

Arguments Ok {A} a.
Arguments Raise {A} e.

(** An operation on the store: its outcome and the store it leaves. An
    exception stops the operation where it is raised; what was written
    before it stays written unless [atomic] undoes it. *)
Definition M (A : Type) : Type := Store → result A * Store.

#[global] Instance M_ret : MRet M := λ A (a : A) st, (Ok a, st).

#[global] Instance M_bind : MBind M := λ A B (f : A → M B) (m : M A) st,
  match m st with
  | (Ok a, st') => f a st'
  | (Raise e, st') => (Raise e, st')
  end.

Definition raise {A} (e : exn) : M A := λ st, (Raise e, st).

Definition lift {A} (r : result A) : M A := λ st, (r, st).

(** [@transaction.atomic]: a raised exception rolls the store back. *)
Definition atomic {A} (m : M A) : M A := λ st,
  match m st with
  | (Ok a, st') => (Ok a, st')
  | (Raise e, _) => (Raise e, st)
  end.

(** A value on its way into a [DecimalField(max_digits=10,
    decimal_places=2)] column: rounded to two places, refused when the
    rounded value has more than ten digits. *)
Definition fits_column (d : Decimal) : bool :=
  Z.abs (coeff (quantize2 d)) <? 10 ^ 10.

Definition DecimalField_prep (d : Decimal) : result Decimal :=
  if fits_column d then Ok (quantize2 d) else Raise InvalidOperation.

(** A value on its way into an integer column: 64 bits, signed. *)
Definition fits_integer (n : Z) : bool := (- 2 ^ 63 <=? n) && (n <? 2 ^ 63).

(** The row of a [Rental] object: its three amounts in column format. *)
Definition Rental_row (r : Rental) : Rental :=
  mkRental (rental_pk r) (client r) (car_id r) (start_date r)
    (expected_end_date r) (actual_end_date r) (quantize2 (deposit r))
    (quantize2 (daily_cost r)) (quantize2 (total_cost r)) (status r)
    (damage_level r) (late_days r).

Definition rental_fits (r : Rental) : bool :=
  fits_column (deposit r) && fits_column (daily_cost r)
  && fits_column (total_cost r)
  && fits_integer (damage_level r) && fits_integer (late_days r).

(** The amounts are converted while the statement is built, the integers
    are refused when it runs. *)
Definition Rental_prep (r : Rental) : result Rental :=
  if negb (fits_column (deposit r) && fits_column (daily_cost r)
           && fits_column (total_cost r))
  then Raise InvalidOperation
  else if negb (fits_integer (damage_level r) && fits_integer (late_days r))
  then Raise OverflowError
  else Ok (Rental_row r).

(** [Rental.objects.create(...)]: the row gets a primary key no row has;
    the object returned keeps the amounts it was built with. *)
Definition Rental_objects_create (client : Z) (car : Car)
    (start_date expected_end_date : date)
    (deposit daily_cost total_cost : Decimal) (status : RentalStatus)
    : M Rental := λ st,
  let pk := fresh (dom (rentals st)) in
  let rental := mkRental pk client (car_pk car) start_date expected_end_date
                  None deposit daily_cost total_cost status 0 0 in
  match Rental_prep rental with
  | Raise e => (Raise e, st)
  | Ok row =>
      (Ok rental,
       mkStore (cars st) (<[pk := row]> (rentals st)) (fines st) (payments st))
  end.

Definition Payment_objects_create (p : Payment) : M unit := λ st,
  match DecimalField_prep (payment_amount p) with
  | Raise e => (Raise e, st)
  | Ok amount =>
      (Ok (), mkStore (cars st) (rentals st) (fines st)
                (payments st
                 ++ [mkPayment (payment_rental p) (payment_type p) amount]))
  end.

Definition Fine_objects_create (f : Fine) : M unit := λ st,
  match DecimalField_prep (fine_amount f) with
  | Raise e => (Raise e, st)
  | Ok amount =>
      (Ok (), mkStore (cars st) (rentals st)
                (fines st ++ [mkFine (fine_rental f) (reason f) amount])
                (payments st))
  end.

(** The row of a [Car] object. *)
Definition Car_row (c : Car) : Car :=
  mkCar (car_pk c) (car_year c) (quantize2 (daily_price c)) (car_status c).

Definition car_fits (c : Car) : bool :=
  fits_column (daily_price c) && fits_integer (car_year c).

Definition Car_prep (c : Car) : result Car :=
  if negb (fits_column (daily_price c)) then Raise InvalidOperation
  else if negb (fits_integer (car_year c)) then Raise OverflowError
  else Ok (Car_row c).

(** [car.save()] and [rental.save()] write the row of the object's key. *)
Definition car_save (car : Car) : M unit := λ st,
  match Car_prep car with
  | Raise e => (Raise e, st)
  | Ok row =>
      (Ok (), mkStore (<[car_pk car := row]> (cars st)) (rentals st)
                (fines st) (payments st))
  end.

Definition rental_save (rental : Rental) : M unit := λ st,
  match Rental_prep rental with
  | Raise e => (Raise e, st)
  | Ok row =>
      (Ok (), mkStore (cars st) (<[rental_pk rental := row]> (rentals st))
                (fines st) (payments st))
  end.

(** [rental.car]: the row the foreign key names. *)
Definition rental_car (rental : Rental) : M Car := λ st,
  match cars st !! car_id rental with
  | Some car => (Ok car, st)
  | None => (Raise DoesNotExist, st)
  end.

(** [Rental.objects.filter(...)] is a predicate on rows; [.count()] counts
    the rows it holds for and [.update(status=...)] rewrites them. *)
Definition count_rows (P : Rental → bool) (m : gmap Z Rental) : nat :=
  size (filter (λ kr : Z * Rental, P kr.2 = true) m).

Definition update_row (P : Rental → bool) (s : RentalStatus) (r : Rental)
    : Rental :=
  if P r then set_status s r else r.

Definition queryset_count (P : Rental → bool) : M nat := λ st,
  (Ok (count_rows P (rentals st)), st).

Definition queryset_update_status (P : Rental → bool) (s : RentalStatus)
    : M unit := λ st,
  (Ok (), mkStore (cars st) (update_row P s <$> rentals st)
            (fines st) (payments st)).

(** ** Rental factory ([rental_factory.py]) *)

(** [d + timedelta(days=n)]: both the [timedelta] and the resulting date
    have a range. *)
Definition date_add (d : date) (n : Z) : result date :=
  if (n <? -999999999) || (999999999 <? n) then Raise OverflowError
  else
    let o := d + n in
    if (0 <? o) && (o <=? MAXORDINAL) then Ok o else Raise OverflowError.

Section Operations.

Variable today : date.

(** [RentalFactory.calculate_deposit] *)
Definition calculate_deposit (car : Car) (rental_days : Z) : result Decimal :=
  let strategy := get_default_strategy in
  match date_add today rental_days with
  | Raise e => Raise e
  | Ok estimated_end =>
      let rental_cost := calculate_price today strategy car today estimated_end in
      Ok (rental_cost * lit 3 1)%dec
  end.

(** The body of [RentalFactory.create_rental]. *)
Definition create_rental_body (client : Z) (car : Car)
    (start_date end_date : date) (pricing_strategy : string) : M Rental :=
  if negb (is_available car) then
    raise (ValueError (msg_car_unavailable car))
  else if start_date <? today then
    raise (ValueError msg_start_in_past)
  else if end_date <=? start_date then
    raise (ValueError msg_end_not_after_start)
  else
    let strategy := create_strategy pricing_strategy in
    let total_cost := calculate_price today strategy car start_date end_date in
    let daily_cost := daily_price car in
    let days := days_between start_date end_date + 1 in
    deposit ← lift (calculate_deposit car days);
    let rental_status := if start_date <=? today then active else pending in
    rental ← Rental_objects_create client car start_date end_date
               deposit daily_cost total_cost rental_status;
    Payment_objects_create
      (mkPayment (rental_pk rental) deposit_payment deposit);;
    car_save (set_car_status rented car);;
    mret rental.

(** [RentalFactory.create_rental] *)
Definition create_rental (client : Z) (car : Car)
    (start_date end_date : date) (pricing_strategy : string) : M Rental :=
  atomic (create_rental_body client car start_date end_date pricing_strategy).

(** [RentalFactory.validate_rental_dates] *)
Definition validate_rental_dates (start_date end_date : date) : bool * Message :=
  let max_rental_days := 365 in
  if start_date <? today then (false, msg_start_in_past)
  else if end_date <=? start_date then (false, msg_end_not_after_start)
  else
    let rental_days := days_between start_date end_date in
    if rental_days >? max_rental_days then
      (false, msg_max_duration max_rental_days)
    else if rental_days <? 1 then (false, msg_min_duration)
    else (true, msg_empty).

(** ** Rental service ([rental_service.py]) *)

(** The two querysets of the sweep. *)
Definition pending_to_active (r : Rental) : bool :=
  bool_decide (status r = pending) && (start_date r <=? today).

Definition overdue_rentals (r : Rental) : bool :=
  bool_decide (status r = active) && (expected_end_date r <? today).

(** [RentalService.update_overdue_rentals] *)
Definition update_overdue_rentals : M nat :=
  pending_count ← queryset_count pending_to_active;
  queryset_update_status pending_to_active active;;
  overdue_count ← queryset_count overdue_rentals;
  queryset_update_status overdue_rentals overdue;;
  mret (pending_count + overdue_count)%nat.

(** [RentalService._create_fine_records] *)
Definition _create_fine_records (rental : Rental) (damage_level late_days : Z)
    : M unit :=
  (if 0 <? damage_level then
     let damage_fine := calculate_damage_fine rental damage_level in
     Fine_objects_create
       (mkFine (rental_pk rental) (damage_reason damage_level) damage_fine)
   else mret ());;
  (if 0 <? late_days then
     let late_fine := calculate_late_fine rental late_days in
     Fine_objects_create
       (mkFine (rental_pk rental) (late_reason late_days) late_fine)
   else mret ()).

(** The body of [RentalService.complete_rental]. [rental.car] is fetched
    at its first use and the same object is saved at the end. *)
Definition complete_rental_body (rental : Rental) (actual_end_date : date)
    (damage_level late_days : Z) : M (Rental * Decimal * Decimal) :=
  let total_fines := calculate_total_fines rental damage_level late_days in
  let refund := calculate_refund rental total_fines in
  let rental := set_return actual_end_date damage_level late_days rental in
  let rental := set_status completed rental in
  let strategy := get_default_strategy in
  car ← rental_car rental;
  let rental :=
    set_total_cost
      (calculate_price today strategy car (start_date rental) actual_end_date)
      rental in
  let rental := set_total_cost (total_cost rental + total_fines)%dec rental in
  rental_save rental;;
  _create_fine_records rental damage_level late_days;;
  (if is_positive refund then
     Payment_objects_create (mkPayment (rental_pk rental) refund_payment refund)
   else mret ());;
  car_save (set_car_status available car);;
  mret (rental, total_fines, refund).

(** [RentalService.complete_rental] *)
Definition complete_rental (rental : Rental) (actual_end_date : date)
    (damage_level late_days : Z) : M (Rental * Decimal * Decimal) :=
  atomic (complete_rental_body rental actual_end_date damage_level late_days).

End Operations.

(** The Fine objects a completion hands to [Fine.objects.create]. *)
Definition fine_rows (rental : Rental) (damage_level late_days : Z) : list Fine :=
  (if 0 <? damage_level then
     [mkFine (rental_pk rental) (damage_reason damage_level)
        (calculate_damage_fine rental damage_level)]
   else [])
  ++ (if 0 <? late_days then
        [mkFine (rental_pk rental) (late_reason late_days)
           (calculate_late_fine rental late_days)]
      else []).

(** The row of a [Fine] object. *)
Definition stored_fine (f : Fine) : Fine :=
  mkFine (fine_rental f) (reason f) (quantize2 (fine_amount f)).

(** The [Rental] object as complete_rental leaves it, for the car [car]
    of the rental. *)
Definition completed_rental (today : date) (r : Rental) (car : Car)
    (actual_end_date : date) (damage_level late_days : Z) : Rental :=
  mkRental (rental_pk r) (client r) (car_id r) (start_date r)
    (expected_end_date r) (Some actual_end_date) (deposit r) (daily_cost r)
    (calculate_price today CombinedPricingStrategy car (start_date r)
       actual_end_date
     + calculate_total_fines r damage_level late_days)%dec
    completed damage_level late_days.

(** Everything a completion writes fits its column. *)
Definition completion_fits (today : date) (r : Rental) (car : Car)
    (actual_end_date : date) (damage_level late_days : Z) : bool :=
  let refund :=
    calculate_refund r (calculate_total_fines r damage_level late_days) in
  car_fits car
  && rental_fits (completed_rental today r car actual_end_date
                    damage_level late_days)
  && forallb (λ f, fits_column (fine_amount f))
             (fine_rows r damage_level late_days)
  && (if is_positive refund then fits_column refund else true).

(** Everything a booking writes fits its column. *)
Definition booking_fits (today : date) (car : Car) (s e : date)
    (name : string) : bool :=
  car_fits car
  && fits_column (calculate_price today (create_strategy name) car s e)
  && match calculate_deposit today car (days_between s e + 1) with
     | Ok dep => fits_column dep
     | Raise _ => true
     end.

(** ** The specification's side

    The brackets, tables and error kinds as the specification words them,
    to compare the code with. *)

Module Spec.

(** "multiplier = 1.2 if age <= 2, 1.0 if age <= 5, 0.9 if age <= 10,
    else 0.8" *)
Definition year_multiplier (age : Z) : Q :=
  if age <=? 2 then 12 # 10
  else if age <=? 5 then 1
  else if age <=? 10 then 9 # 10
  else 8 # 10.

(** "discount = 0.15 if days >= 30, 0.10 if days >= 14, 0.05 if days >= 7,
    else 0" *)
Definition duration_discount (days : Z) : Q :=
  if 30 <=? days then 15 # 100
  else if 14 <=? days then 10 # 100
  else if 7 <=? days then 5 # 100
  else 0.

(** "multiplier table {0:0.0, 1:0.1, 2:0.3, 3:0.5}; an out-of-range level
    is coerced to 0" *)
Definition damage_multiplier (damage_level : Z) : Q :=
  if damage_level =? 1 then 1 # 10
  else if damage_level =? 2 then 3 # 10
  else if damage_level =? 3 then 5 # 10
  else 0.

(** "late_days x 500.00 fixed per-day rate if late_days > 0, else 0" *)
Definition late_fine (late_days : Z) : Q :=
  if 0 <? late_days then (inject_Z late_days * 500)%Q else 0%Q.

(** The error kinds of the specification and the exceptions of the code
    they name: every rejection is a [ValueError], told apart by its text. *)
Inductive ErrorKind := VehicleUnavailable | InvalidDateRange.

Definition error_kind (e : exn) : option ErrorKind :=
  match e with
  | ValueError (msg_car_unavailable _) => Some VehicleUnavailable
  | ValueError msg_start_in_past => Some InvalidDateRange
  | ValueError msg_end_not_after_start => Some InvalidDateRange
  | ValueError (msg_max_duration _) => Some InvalidDateRange
  | ValueError msg_min_duration => Some InvalidDateRange
  | _ => None
  end.

Section Sweep.

Variable today : date.

(** "(a) all pending rentals with start_date <= today", "(b) all active
    rentals with expected_end_date < today", and the rentals that are
    pending, started and already past their end. *)
Definition starts_due (r : Rental) : bool :=
  bool_decide (status r = pending ∧ start_date r <= today).

Definition ends_overdue (r : Rental) : bool :=
  bool_decide (status r = active ∧ expected_end_date r < today).

Definition stale (r : Rental) : bool :=
  bool_decide (status r = pending ∧ start_date r <= today
               ∧ expected_end_date r < today).

(** The two transitions taken independently, each on the rental as the
    call finds it. *)
Definition transitioned (r : Rental) : Rental :=
  if starts_due r then set_status active r
  else if ends_overdue r then set_status overdue r
  else r.

(** A rental after the call: as [transitioned], except that a stale
    rental goes on to overdue. *)
Definition after_sweep (r : Rental) : Rental :=
  if stale r then set_status overdue r else transitioned r.

(** The sweep with its two bulk transitions in the other order:
    (b) active to overdue first, (a) pending to active second. *)
Definition update_overdue_rentals_swapped : M nat :=
  overdue_count ← queryset_count ends_overdue;
  queryset_update_status ends_overdue overdue;;
  pending_count ← queryset_count starts_due;
  queryset_update_status starts_due active;;
  mret (pending_count + overdue_count)%nat.

(** A pending rental whose whole window is already past: transition (a)
    applies to it, and (b) applies to what (a) makes of it. *)
Definition pending_and_expired (r : Rental) : bool :=
  pending_to_active today r && (expected_end_date r <? today).

(** What one sweep makes of a row. *)
Definition swept (r : Rental) : Rental :=
  if pending_to_active today r then
    if expected_end_date r <? today then set_status overdue r
    else set_status active r
  else if overdue_rentals today r then set_status overdue r
  else r.

End Sweep.

End Spec.

(** ** Sample data *)

Module Sample.

(** 2026-11-03 *)
Definition today : date := 739923.

Definition car : Car := mkCar 1 2026 (lit 100000 2) available.

Definition store : Store := mkStore {[ 1 := car ]} ∅ [] [].

(** A ten-day rental of [car], created on [today], deposit 3000.00. *)
Definition rental : Rental :=
  mkRental 1 7 1 today (today + 9) None (lit 300000 2) (lit 100000 2)
    (lit 1140000 2) active 0 0.

Definition rented_store : Store :=
  mkStore {[ 1 := set_car_status rented car ]} {[ 1 := rental ]}
    [] [mkPayment 1 deposit_payment (lit 300000 2)].

(** A booking made ten days ago for a window that ended five days ago,
    never picked up by a sweep since. *)
Definition stale_rental : Rental :=
  mkRental 1 7 1 (today - 10) (today - 5) None (lit 300000 2)
    (lit 100000 2) (lit 600000 2) pending 0 0.

Definition stale_store : Store :=
  mkStore {[ 1 := set_car_status rented car ]} {[ 1 := stale_rental ]}
    [] [mkPayment 1 deposit_payment (lit 300000 2)].

(** Two rentals the sweep is due to move: a booking made earlier for a
    window that starts today, still pending, and a rental of a second car
    that ended yesterday and has not come back. *)
Definition car2 : Car := mkCar 2 2020 (lit 80000 2) rented.

Definition due_rental : Rental :=
  mkRental 1 7 1 today (today + 9) None (lit 300000 2) (lit 100000 2)
    (lit 1140000 2) pending 0 0.

Definition late_rental : Rental :=
  mkRental 2 8 2 (today - 10) (today - 1) None (lit 190000 2) (lit 80000 2)
    (lit 684000 2) active 0 0.

Definition due_store : Store :=
  mkStore {[ 1 := set_car_status rented car; 2 := car2 ]}
    {[ 1 := due_rental; 2 := late_rental ]}
    []
    [mkPayment 1 deposit_payment (lit 300000 2);
     mkPayment 2 deposit_payment (lit 190000 2)].

(** A rental with a deposit of one cent. *)
Definition cent_rental : Rental :=
  mkRental 1 7 1 today (today + 9) None (lit 1 2) (lit 100000 2)
    (lit 1140000 2) active 0 0.

Definition cent_store : Store :=
  mkStore {[ 1 := set_car_status rented car ]} {[ 1 := cent_rental ]}
    [] [mkPayment 1 deposit_payment (lit 1 2)].

(** A rental with a deposit of 1234.56. *)
Definition odd_rental : Rental :=
  mkRental 1 7 1 today (today + 9) None (lit 123456 2) (lit 100000 2)
    (lit 1140000 2) active 0 0.

Definition odd_store : Store :=
  mkStore {[ 1 := set_car_status rented car ]} {[ 1 := odd_rental ]}
    [] [mkPayment 1 deposit_payment (lit 123456 2)].

End Sample.

(** ** The rest of the rule engine

    The price breakdown of [pricing_strategy.py], [Rental.is_overdue] of
    [models.py], the active-rentals query of [rental_service.py], the
    availability queries of [car_service.py] and the revenue report of
    [statistics_service.py]. *)

(** The descriptions [_calculate_year_multiplier] and
    [_calculate_duration_discount] return beside the number. *)
Inductive YearDescription :=
  | year_plus_20 (age : Z)     (* "+20% (авто {age} років)" *)
  | year_unchanged             (* "Без зміни (авто 3-5 років)" *)
  | year_minus_10 (age : Z)    (* "-10% (авто {age} років)" *)
  | year_minus_20 (age : Z).   (* "-20% (авто {age} років)" *)

Inductive DurationDescription :=
  | discount_15                (* "-15% (оренда 30+ днів)" *)
  | discount_10                (* "-10% (оренда 14+ днів)" *)
  | discount_5                 (* "-5% (оренда 7+ днів)" *)
  | no_discount.               (* "Без знижки" *)

Definition _year_description (age : Z) : YearDescription :=
  if age <=? 2 then year_plus_20 age
  else if age <=? 5 then year_unchanged
  else if age <=? 10 then year_minus_10 age
  else year_minus_20 age.

Definition _duration_description (days : Z) : DurationDescription :=
  if days >=? 30 then discount_15
  else if days >=? 14 then discount_10
  else if days >=? 7 then discount_5
  else no_discount.

Module Details.

(** The dictionary [calculate_price_details] returns, key by key. *)
Record t : Type := mk {
  base_price : Decimal;
  days : Z;
  year_multiplier : Decimal;
  year_description : YearDescription;
  year_adjustment : Decimal;
  price_with_year : Decimal;
  duration_discount : Decimal;
  duration_description : DurationDescription;
  duration_discount_amount : Decimal;
  final_price : Decimal
}.

End Details.

(** [CombinedPricingStrategy.calculate_price_details] *)
Definition calculate_price_details (today : date) (car : Car)
    (start_date end_date : date) : Details.t :=
  let days := days_between start_date end_date + 1 in
  let current_year := date_year today in
  let age := current_year - car_year car in
  let base_price := (daily_price car * of_int days)%dec in
  let year_multiplier := _calculate_year_multiplier age in
  let year_description := _year_description age in
  let price_with_year := (base_price * year_multiplier)%dec in
  let year_adjustment := (price_with_year - base_price)%dec in
  let duration_discount := _calculate_duration_discount days in
  let duration_description := _duration_description days in
  let final_price := (price_with_year * (lit 10 1 - duration_discount))%dec in
  let duration_discount_amount := (price_with_year * duration_discount)%dec in
  Details.mk base_price days year_multiplier year_description
    year_adjustment price_with_year duration_discount duration_description
    duration_discount_amount final_price.

(** [Rental.is_overdue] *)
Definition is_overdue (today : date) (r : Rental) : bool :=
  bool_decide (status r = active) && (today >? expected_end_date r).

(** [status__in=[...]] *)
Definition status_in (l : list RentalStatus) (r : Rental) : bool :=
  bool_decide (status r ∈ l).

(** [RentalService.get_active_rentals]: the rows of the queryset. *)
Definition get_active_rentals (today : date) (st : Store) : gmap Z Rental :=
  filter (λ kr : Z * Rental,
            status_in [active; pending] kr.2 && (start_date kr.2 <=? today)
            = true)
         (rentals st).

(** [CarService.get_available_cars] *)
Definition get_available_cars (st : Store) : gmap Z Car :=
  filter (λ kc : Z * Car, car_status kc.2 = available) (cars st).

(** The filter both availability queries share:
    [status__in=['active', 'pending', 'overdue'], start_date__lte=end_date,
    expected_end_date__gte=start_date]. *)
Definition overlaps_live (start_date' end_date' : date) (r : Rental) : bool :=
  status_in [active; pending; overdue] r
  && (start_date r <=? end_date')
  && (expected_end_date r >=? start_date').

(** [CarService.is_car_busy_for_dates] *)
Definition is_car_busy_for_dates (car : Car) (start_date' end_date' : date)
    (st : Store) : bool :=
  bool_decide
    (filter (λ kr : Z * Rental,
               car_id kr.2 = car_pk car
               ∧ overlaps_live start_date' end_date' kr.2 = true)
            (rentals st) ≠ ∅).

(** [CarService.get_cars_available_for_dates] *)
Definition get_cars_available_for_dates (start_date' end_date' : date)
    (st : Store) : gmap Z Car :=
  let all_cars := cars st in
  let busy_cars : gset Z :=
    map_img (car_id <$>
             filter (λ kr : Z * Rental,
                       overlaps_live start_date' end_date' kr.2 = true)
                    (rentals st)) in
  filter (λ kc : Z * Car, kc.1 ∉ busy_cars) all_cars.

(** The two factors a strategy puts on the Standard price, as numbers:
    the year multiplier for the strategies that read the car's age, the
    complement of the duration discount for those that read the length. *)
Definition year_factor (today : date) (strategy : PricingStrategy) (car : Car)
    : Q :=
  match strategy with
  | YearBasedPricingStrategy | CombinedPricingStrategy =>
      Spec.year_multiplier (date_year today - car_year car)
  | _ => 1%Q
  end.

Definition duration_factor (strategy : PricingStrategy) (days : Z) : Q :=
  match strategy with
  | DurationBasedPricingStrategy | CombinedPricingStrategy =>
      (1 - Spec.duration_discount days)%Q
  | _ => 1%Q
  end.

(** The total of a list of Fine rows, as a number. *)
Definition sum_amounts (l : list Fine) : Q :=
  foldr (λ f acc, dval (fine_amount f) + acc)%Q 0%Q l.

(** The row [Rental.objects.create] is given in create_rental, under the
    primary key [pk] and with the deposit [dep]. *)
Definition created_rental (today : date) (client : Z) (car : Car)
    (s e : date) (name : string) (dep : Decimal) (pk : Z) : Rental :=
  mkRental pk client (car_pk car) s e None dep (daily_price car)
    (calculate_price today (create_strategy name) car s e)
    (if s <=? today then active else pending) 0 0.

(** [StatisticsService.get_revenue_by_period]. [rows] is the rentals
    table in the order the database returns it. *)

(** The queryset: completed rentals whose end day, the actual one when
    there is one and the expected one otherwise, lies in the period. *)
Definition ended_in_period (start_date' end_date' : date) (r : Rental) : bool :=
  bool_decide (status r = completed)
  && match actual_end_date r with
     | Some d => (d >=? start_date') && (d <=? end_date')
     | None => (expected_end_date r >=? start_date')
               && (expected_end_date r <=? end_date')
     end.

(** [rental.actual_end_date if rental.actual_end_date else
    rental.expected_end_date] *)
Definition end_day (r : Rental) : Z :=
  default (expected_end_date r) (actual_end_date r).

(** One turn of the loop over the rentals. *)
Definition add_revenue (revenue_by_day : gmap Z Decimal) (rental : Rental)
    : gmap Z Decimal :=
  let day := end_day rental in
  let revenue_by_day :=
    if bool_decide (revenue_by_day !! day = None)
    then <[day := lit 0 2]> revenue_by_day else revenue_by_day in
  <[day := (revenue_by_day !!! day + total_cost rental)%dec]> revenue_by_day.

(** [sorted(revenue_by_day.items())]: the keys of a dictionary differ, so
    the order of the pairs is the order of their days. *)
Definition by_day (a b : Z * Decimal) : Prop := a.1 <= b.1.

#[global] Instance by_day_dec : RelDecision by_day.
Proof. intros a b. unfold by_day. apply _. Defined.

Definition sorted_items (m : gmap Z Decimal) : list (Z * Decimal) :=
  merge_sort by_day (map_to_list m).

Definition get_revenue_by_period (start_date' end_date' : date)
    (rows : list Rental) : list (Z * Decimal) :=
  let rentals := filter (λ r, ended_in_period start_date' end_date' r = true) rows in
  sorted_items (foldl add_revenue ∅ rentals).

(** The total cost of a list of rentals, as a number. *)
Definition sum_costs (l : list Rental) : Q :=
  foldr (λ r acc, dval (total_cost r) + acc)%Q 0%Q l.

(** ** Values of decimals *)

Section DecimalFacts.

Lemma pow10_pos n : 0 < pow10 n.
Proof. unfold pow10. apply Z.pow_pos_nonneg; lia. Qed.

Lemma pow10_add n m : pow10 (n + m) = pow10 n * pow10 m.
Proof. unfold pow10. rewrite Nat2Z.inj_add, Z.pow_add_r; lia. Qed.

Lemma pow10_Q_nonzero n : ~ (inject_Z (pow10 n) == 0)%Q.
Proof.
  pose proof (pow10_pos n) as Hp. unfold Qeq; simpl. lia.
Qed.

Lemma dval_of_int n : (dval (of_int n) == inject_Z n)%Q.
Proof.
  unfold dval, of_int; simpl. change (pow10 0) with 1.
  unfold Qdiv. change (/ inject_Z 1)%Q with 1%Q. ring.
Qed.

Lemma dval_lit_0 c : (dval (lit c 0) == inject_Z c)%Q.
Proof. apply dval_of_int. Qed.

Lemma dval_mul a b : (dval (a * b) == dval a * dval b)%Q.
Proof.
  unfold dval, mul; simpl.
  rewrite pow10_add, !inject_Z_mult.
  field. split; apply pow10_Q_nonzero.
Qed.

Lemma dval_rescale s a :
  (scale a <= s)%nat →
  (inject_Z (rescale s a) / inject_Z (pow10 s) == dval a)%Q.
Proof.
  intros Hs. unfold rescale, dval.
  replace (pow10 s) with (pow10 (s - scale a) * pow10 (scale a))
    by (rewrite <- pow10_add; f_equal; lia).
  rewrite !inject_Z_mult.
  field. split; apply pow10_Q_nonzero.
Qed.

Lemma dval_add a b : (dval (a + b) == dval a + dval b)%Q.
Proof.
  unfold add. set (s := Nat.max (scale a) (scale b)).
  rewrite <- (dval_rescale s a), <- (dval_rescale s b) by (subst s; lia).
  unfold dval; simpl. rewrite inject_Z_plus.
  field. apply pow10_Q_nonzero.
Qed.

Lemma dval_sub a b : (dval (a - b) == dval a - dval b)%Q.
Proof.
  unfold sub. set (s := Nat.max (scale a) (scale b)).
  rewrite <- (dval_rescale s a), <- (dval_rescale s b) by (subst s; lia).
  unfold dval; simpl. unfold Z.sub. rewrite inject_Z_plus, inject_Z_opp.
  field. apply pow10_Q_nonzero.
Qed.

End DecimalFacts.

Section DecimalOrder.

Lemma dval_Qmake a : (dval a == coeff a # Z.to_pos (pow10 (scale a)))%Q.
Proof.
  unfold dval. pose proof (pow10_pos (scale a)) as Hp.
  destruct (pow10 (scale a)) as [|p|p] eqn:E; try lia.
  unfold Qeq, Qdiv, Qmult, Qinv; simpl. lia.
Qed.

Lemma ltb_lt a b : Dec.ltb a b = true ↔ (dval a < dval b)%Q.
Proof.
  rewrite (dval_Qmake a), (dval_Qmake b).
  unfold Dec.ltb, Qlt; simpl.
  rewrite !Z2Pos.id by apply pow10_pos. apply Z.ltb_lt.
Qed.

Lemma ltb_ge a b : Dec.ltb a b = false ↔ (dval b <= dval a)%Q.
Proof.
  rewrite (dval_Qmake a), (dval_Qmake b).
  unfold Dec.ltb, Qle; simpl.
  rewrite !Z2Pos.id by apply pow10_pos. apply Z.ltb_ge.
Qed.

Lemma is_positive_lt d : is_positive d = true ↔ (0 < dval d)%Q.
Proof.
  rewrite (dval_Qmake d). unfold is_positive, Qlt; simpl.
  rewrite Z.ltb_lt. lia.
Qed.

Lemma dval_zero s : (dval (lit 0 s) == 0)%Q.
Proof. rewrite dval_Qmake. unfold Qeq; simpl. lia. Qed.

Lemma dval_max a b : (dval (Dec.max a b) == Qmax (dval a) (dval b))%Q.
Proof.
  unfold Dec.max. destruct (Dec.ltb a b) eqn:E.
  - apply ltb_lt in E. symmetry. apply Q.max_r. by apply Qlt_le_weak.
  - apply ltb_ge in E. symmetry. by apply Q.max_l.
Qed.

End DecimalOrder.

(** ** Rounding to a column

    [quantize2] is what a DecimalField(decimal_places=2) stores. *)

Lemma quantize2_scale d : scale (quantize2 d) = 2%nat.
Proof. unfold quantize2. by destruct (_ <=? _)%nat. Qed.

Lemma quantize2_exact d :
  (scale d <= 2)%nat → (dval (quantize2 d) == dval d)%Q.
Proof.
  intros Hs. unfold quantize2.
  destruct (Nat.leb_spec (scale d) 2); [|lia].
  apply (dval_rescale 2 d Hs).
Qed.

Lemma quantize2_round d :
  (2 < scale d)%nat →
  let p := pow10 (scale d - 2) in
  0 < p ∧ pow10 (scale d) = 100 * p
  ∧ -p <= 2 * (coeff (quantize2 d) * p - coeff d) <= p.
Proof.
  intros Hs p. pose proof (pow10_pos (scale d - 2)) as Hp. fold p in Hp.
  split; [done|]. split.
  { replace (scale d) with (2 + (scale d - 2))%nat at 1 by lia.
    rewrite pow10_add. reflexivity. }
  unfold quantize2. destruct (Nat.leb_spec (scale d) 2); [lia|].
  fold p. simpl.
  pose proof (Z.div_mod (coeff d) p ltac:(lia)) as Hdm.
  pose proof (Z.mod_pos_bound (coeff d) p Hp) as Hr.
  set (q := coeff d / p) in *. set (r := coeff d mod p) in *.
  destruct (Z.compare_spec (2 * r) p); [destruct (Z.even q)|..]; nia.
Qed.

Lemma quantize2_close d :
  (dval d - (1 # 200) <= dval (quantize2 d) <= dval d + (1 # 200))%Q.
Proof.
  destruct (Nat.leb_spec (scale d) 2) as [Hs|Hs].
  { rewrite (quantize2_exact d Hs). split; lra. }
  destruct (quantize2_round d Hs) as (Hp & Hpow & Hlo & Hhi).
  rewrite (dval_Qmake d), (dval_Qmake (quantize2 d)), quantize2_scale, Hpow.
  set (p := pow10 (scale d - 2)) in *.
  set (k := coeff (quantize2 d)) in *.
  change (pow10 2) with 100.
  unfold Qle, Qminus, Qplus, Qopp; simpl.
  rewrite !Pos2Z.inj_mul, !Z2Pos.id by lia.
  split; nia.
Qed.

Lemma quantize2_rescale c s k :
  quantize2 (mkDecimal (c * pow10 k) (s + k)) = quantize2 (mkDecimal c s).
Proof.
  unfold quantize2; simpl.
  pose proof (pow10_pos k) as Hk.
  destruct (Nat.leb_spec s 2) as [Hs|Hs].
  - destruct (Nat.leb_spec (s + k) 2) as [Hsk|Hsk].
    + f_equal. unfold rescale; simpl.
      replace (2 - s)%nat with (k + (2 - (s + k)))%nat by lia.
      rewrite pow10_add. ring.
    + f_equal. unfold rescale; simpl.
      set (p := pow10 (s + k - 2)).
      assert (0 < p) as Hp by apply pow10_pos.
      assert (c * pow10 k = c * pow10 (2 - s) * p) as ->.
      { unfold p. rewrite <- Z.mul_assoc, <- pow10_add.
        do 2 f_equal. lia. }
      rewrite Z.div_mul, Z.mod_mul by lia.
      destruct (Z.compare_spec (2 * 0) p); lia.
  - destruct (Nat.leb_spec (s + k) 2) as [Hsk|Hsk]; [lia|].
    replace (s + k - 2)%nat with ((s - 2) + k)%nat by lia.
    rewrite pow10_add.
    set (p := pow10 (s - 2)).
    assert (0 < p) as Hp by apply pow10_pos.
    rewrite Z.div_mul_cancel_r, Zmult_mod_distr_r by lia.
    destruct (Z.compare_spec (2 * (c mod p)) p),
      (Z.compare_spec (2 * (c mod p * pow10 k)) (p * pow10 k));
      try nia; reflexivity.
Qed.

Lemma dval_eq_coeff a b :
  (dval a == dval b)%Q ↔ coeff a * pow10 (scale b) = coeff b * pow10 (scale a).
Proof.
  rewrite (dval_Qmake a), (dval_Qmake b). unfold Qeq; simpl.
  by rewrite !Z2Pos.id by apply pow10_pos.
Qed.

(** Rounding to the column depends on the number only, not on the way it
    is written. *)
Lemma quantize2_proper a b :
  (dval a == dval b)%Q → quantize2 a = quantize2 b.
Proof.
  assert (∀ a b, (scale a <= scale b)%nat → (dval a == dval b)%Q →
                 quantize2 a = quantize2 b) as Hle.
  { clear. intros [ca sa] [cb sb]; simpl. intros Hs Heq.
    apply dval_eq_coeff in Heq; simpl in Heq.
    replace sb with (sa + (sb - sa))%nat in * by lia.
    rewrite pow10_add in Heq.
    pose proof (pow10_pos sa) as Hp.
    assert (cb = ca * pow10 (sb - sa)) as -> by nia.
    symmetry. apply quantize2_rescale. }
  intros Heq. destruct (Nat.le_ge_cases (scale a) (scale b)).
  - by apply Hle.
  - symmetry. apply Hle; [done | by symmetry].
Qed.

Lemma quantize2_fixed d : scale d = 2%nat → quantize2 d = d.
Proof.
  destruct d as [c s]; simpl. intros ->.
  unfold quantize2, rescale; simpl. change (pow10 0) with 1.
  f_equal. lia.
Qed.

Lemma quantize2_idempotent d : quantize2 (quantize2 d) = quantize2 d.
Proof. apply quantize2_fixed, quantize2_scale. Qed.

(** Rounding keeps an amount on its side of every cent. *)
Lemma quantize2_ge d n :
  (inject_Z n / 100 <= dval d)%Q → n <= coeff (quantize2 d).
Proof.
  intros Hn. destruct (Nat.leb_spec (scale d) 2) as [Hs|Hs].
  - rewrite <- (quantize2_exact d Hs) in Hn.
    rewrite (dval_Qmake (quantize2 d)), quantize2_scale in Hn.
    unfold Qle, Qdiv, Qmult, Qinv in Hn; simpl in Hn. lia.
  - destruct (quantize2_round d Hs) as (Hp & Hpow & Hlo & Hhi).
    rewrite (dval_Qmake d), Hpow in Hn.
    set (p := pow10 (scale d - 2)) in *.
    unfold Qle, Qdiv, Qmult, Qinv in Hn; simpl in Hn.
    rewrite Z2Pos.id in Hn by lia.
    assert (n * p <= coeff d) by nia.
    set (k := coeff (quantize2 d)) in *. nia.
Qed.

Lemma quantize2_le d n :
  (dval d <= inject_Z n / 100)%Q → coeff (quantize2 d) <= n.
Proof.
  intros Hn. destruct (Nat.leb_spec (scale d) 2) as [Hs|Hs].
  - rewrite <- (quantize2_exact d Hs) in Hn.
    rewrite (dval_Qmake (quantize2 d)), quantize2_scale in Hn.
    unfold Qle, Qdiv, Qmult, Qinv in Hn; simpl in Hn. lia.
  - destruct (quantize2_round d Hs) as (Hp & Hpow & Hlo & Hhi).
    rewrite (dval_Qmake d), Hpow in Hn.
    set (p := pow10 (scale d - 2)) in *.
    unfold Qle, Qdiv, Qmult, Qinv in Hn; simpl in Hn.
    rewrite Z2Pos.id in Hn by lia.
    assert (coeff d <= n * p) by nia.
    set (k := coeff (quantize2 d)) in *. nia.
Qed.

Lemma fits_column_quantize2 d : fits_column (quantize2 d) = fits_column d.
Proof. unfold fits_column. by rewrite quantize2_idempotent. Qed.

Lemma fits_column_proper a b :
  (dval a == dval b)%Q → fits_column a = fits_column b.
Proof. intros H. unfold fits_column. by rewrite (quantize2_proper a b H). Qed.

Lemma Rental_row_idempotent r : Rental_row (Rental_row r) = Rental_row r.
Proof. unfold Rental_row; simpl. by rewrite !quantize2_idempotent. Qed.

Lemma Rental_prep_Ok r : rental_fits r = true → Rental_prep r = Ok (Rental_row r).
Proof.
  unfold rental_fits, Rental_prep. intros H.
  repeat (apply andb_prop in H as [H ?]). rewrite H. simpl.
  by repeat match goal with H : _ = true |- _ => rewrite H; clear H end.
Qed.

Lemma Car_prep_Ok c : car_fits c = true → Car_prep c = Ok (Car_row c).
Proof.
  unfold car_fits, Car_prep. intros [-> ->]%andb_prop. done.
Qed.

Lemma Car_row_status s c :
  Car_row (set_car_status s c) = set_car_status s (Car_row c).
Proof. done. Qed.

Lemma DecimalField_prep_Ok d :
  fits_column d = true → DecimalField_prep d = Ok (quantize2 d).
Proof. unfold DecimalField_prep. by intros ->. Qed.

(** Half a cent goes to the even cent, and trailing zeros are dropped. *)
Example quantize2_samples :
  quantize2 (lit 1111104 3) = lit 111110 2
  ∧ quantize2 (lit 5 3) = lit 0 2
  ∧ quantize2 (lit 15 3) = lit 2 2
  ∧ quantize2 (lit 123456 3) = lit 12346 2
  ∧ quantize2 (lit (-15) 3) = lit (-2) 2
  ∧ quantize2 (lit 3 0) = lit 300 2
  ∧ quantize2 (lit 1055548800 5) = lit 1055549 2.
Proof. repeat split. Qed.

(** ** Pricing *)

Example sample_today_year :
  date_year Sample.today = 2026 ∧ date_year MAXORDINAL = 9999
  ∧ date_year MINORDINAL = 1.
Proof. repeat split. Qed.

Lemma get_default_strategy_combined : get_default_strategy = CombinedPricingStrategy.
Proof. reflexivity. Qed.

(** X8. create_strategy looks the name up in STRATEGIES and falls back to
    the Combined strategy for every name that is not a key. *)
Lemma create_strategy_cases name :
  create_strategy name =
    if decide (name = "standard") then StandardPricingStrategy
    else if decide (name = "year_based") then YearBasedPricingStrategy
    else if decide (name = "duration_based") then DurationBasedPricingStrategy
    else CombinedPricingStrategy.
Proof.
  unfold create_strategy, STRATEGIES.
  repeat (case_decide; [subst; reflexivity|]).
  destruct (decide (name = "combined")) as [->|]; [reflexivity|].
  by rewrite !lookup_insert_ne, lookup_empty by done.
Qed.

Lemma year_multiplier_value age :
  (dval (_calculate_year_multiplier age) == Spec.year_multiplier age)%Q.
Proof.
  unfold _calculate_year_multiplier, Spec.year_multiplier.
  repeat case_match; reflexivity.
Qed.

Lemma duration_discount_value days :
  (dval (_calculate_duration_discount days) == Spec.duration_discount days)%Q.
Proof.
  unfold _calculate_duration_discount, Spec.duration_discount.
  rewrite !Z.geb_leb. repeat case_match; reflexivity.
Qed.

(** The Standard strategy: daily price times the inclusive day count. *)
Lemma standard_price_value today car s e :
  (dval (calculate_price today StandardPricingStrategy car s e) ==
   dval (daily_price car) * inject_Z (days_between s e + 1))%Q.
Proof. unfold calculate_price. by rewrite dval_mul, dval_of_int. Qed.

(** The Combined strategy on every window, ordered or not. *)
Lemma combined_price_value today car s e :
  (dval (calculate_price today CombinedPricingStrategy car s e) ==
   dval (daily_price car) * inject_Z (days_between s e + 1)
   * Spec.year_multiplier (date_year today - car_year car)
   * (1 - Spec.duration_discount (days_between s e + 1)))%Q.
Proof.
  unfold calculate_price.
  rewrite !dval_mul, dval_sub, dval_of_int.
  rewrite year_multiplier_value, duration_discount_value.
  assert (dval (lit 10 1) == 1)%Q as -> by reflexivity.
  reflexivity.
Qed.

(** C1. For every car with daily price p and year y and every window
    [s, e] with e > s, the Combined strategy, which is the default one,
    returns p * d * m * (1 - disc): d = (e - s).days + 1 counts both end
    points, m is the year multiplier of the age current_year - y (1.2 up
    to 2, 1.0 up to 5, 0.9 up to 10, else 0.8), disc the duration discount
    of d (0.15 from 30, 0.10 from 14, 0.05 from 7, else 0). It is the
    Standard price times m times (1 - disc). *)
Theorem combined_price_formula today car s e :
  s < e →
  let d := days_between s e + 1 in
  let m := Spec.year_multiplier (date_year today - car_year car) in
  let disc := Spec.duration_discount d in
  let price := calculate_price today get_default_strategy car s e in
  get_default_strategy = CombinedPricingStrategy
  ∧ d = e - s + 1
  ∧ (dval price == dval (daily_price car) * inject_Z d * m * (1 - disc))%Q
  ∧ (dval price ==
     dval (calculate_price today StandardPricingStrategy car s e)
     * m * (1 - disc))%Q.
Proof.
  intros _ d m disc price. subst price.
  rewrite get_default_strategy_combined.
  repeat split.
  - apply combined_price_value.
  - rewrite standard_price_value. apply combined_price_value.
Qed.

Lemma combined_price_formula_witness :
  (dval (calculate_price Sample.today get_default_strategy Sample.car
           Sample.today (Sample.today + 9)%Z)
   == dval (daily_price Sample.car) * inject_Z 10 * (12 # 10) * (1 - (5 # 100)))%Q.
Proof.
  exact (proj1 (proj2 (proj2
    (combined_price_formula Sample.today Sample.car
       Sample.today (Sample.today + 9) eq_refl)))).
Defined.

(** The brackets at their boundaries: ages 2, 3, 5, 6, 10, 11 and day
    counts 6, 7, 13, 14, 29, 30. *)
Example year_multiplier_boundaries :
  _calculate_year_multiplier <$> [2; 3; 5; 6; 10; 11]
  = [lit 12 1; lit 10 1; lit 10 1; lit 9 1; lit 9 1; lit 8 1].
Proof. reflexivity. Qed.

Example duration_discount_boundaries :
  _calculate_duration_discount <$> [6; 7; 13; 14; 29; 30]
  = [lit 0 1; lit 5 2; lit 5 2; lit 10 2; lit 10 2; lit 15 2].
Proof. reflexivity. Qed.

(** 1000.00 a day, a car of this year, ten days: 1000 * 10 * 1.2 * 0.95. *)
Example combined_price_ten_days :
  calculate_price Sample.today CombinedPricingStrategy Sample.car
    Sample.today (Sample.today + 9) = lit 1140000000 5.
Proof. reflexivity. Qed.

(** X9. No rounding on the pricing path: a price of at most ten digits
    over any window of valid dates keeps every coefficient under the 28
    digits of the default decimal context. *)
Lemma calculate_price_within_precision today strategy car s e :
  Z.abs (coeff (daily_price car)) < 10 ^ 10 →
  valid_date s → valid_date e →
  Z.abs (coeff (calculate_price today strategy car s e)) < 10 ^ 28.
Proof.
  unfold valid_date, MINORDINAL, MAXORDINAL. intros Hp Hs He.
  set (d := days_between s e + 1).
  assert (Z.abs d <= 3652059) as Hd by (unfold d, days_between; lia).
  assert (Z.abs (coeff (daily_price car) * d) < 10 ^ 10 * 3652059) as Hpd.
  { rewrite Z.abs_mul.
    apply Z.le_lt_trans with (Z.abs (coeff (daily_price car)) * 3652059).
    - apply Z.mul_le_mono_nonneg_l; lia.
    - apply Z.mul_lt_mono_pos_r; lia. }
  assert (∀ k, 0 <= k <= 1200 →
            Z.abs (coeff (daily_price car) * d * k) < 10 ^ 28) as Hk.
  { intros k Hk. rewrite Z.abs_mul, (Z.abs_eq k) by lia.
    apply Z.le_lt_trans with (10 ^ 10 * 3652059 * 1200); [|reflexivity].
    apply Z.mul_le_mono_nonneg; lia. }
  unfold calculate_price, _calculate_year_multiplier,
    _calculate_duration_discount. fold d.
  destruct strategy; repeat case_match; simpl;
    unfold rescale, pow10; simpl;
    rewrite <- ?Z.mul_assoc; rewrite ?Z.mul_assoc;
    try (apply Hk; lia).
  all: first
    [ rewrite <- (Z.mul_1_r (coeff (daily_price car) * d)); apply Hk; lia
    | rewrite <- Z.mul_assoc; apply Hk; lia ].
Qed.

(** ** Fines and refund *)

Lemma DAMAGE_MULTIPLIERS_lookup damage_level :
  DAMAGE_MULTIPLIERS !! damage_level =
    if decide (damage_level = 0) then Some (lit 0 1)
    else if decide (damage_level = 1) then Some (lit 1 1)
    else if decide (damage_level = 2) then Some (lit 3 1)
    else if decide (damage_level = 3) then Some (lit 5 1)
    else None.
Proof.
  unfold DAMAGE_MULTIPLIERS.
  repeat (case_decide; [subst; reflexivity|]).
  by rewrite !lookup_insert_ne, lookup_empty by done.
Qed.

(** The multiplier the code ends up with, whatever the level. *)
Lemma damage_multiplier_value damage_level :
  let level :=
    if bool_decide (DAMAGE_MULTIPLIERS !! damage_level = None) then 0
    else damage_level in
  (dval (DAMAGE_MULTIPLIERS !!! level) == Spec.damage_multiplier damage_level)%Q.
Proof.
  simpl. rewrite DAMAGE_MULTIPLIERS_lookup. unfold Spec.damage_multiplier.
  repeat (case_decide; [subst; reflexivity|]).
  rewrite bool_decide_eq_true_2 by done.
  destruct (Z.eqb_spec damage_level 1); [done|].
  destruct (Z.eqb_spec damage_level 2); [done|].
  destruct (Z.eqb_spec damage_level 3); [done|].
  reflexivity.
Qed.

Lemma damage_fine_value rental damage_level :
  (dval (calculate_damage_fine rental damage_level)
   == dval (deposit rental) * Spec.damage_multiplier damage_level)%Q.
Proof.
  unfold calculate_damage_fine.
  by rewrite dval_mul, damage_multiplier_value.
Qed.

Lemma late_fine_value rental late_days :
  (dval (calculate_late_fine rental late_days) == Spec.late_fine late_days)%Q.
Proof.
  unfold calculate_late_fine, Spec.late_fine.
  destruct (Z.leb_spec late_days 0), (Z.ltb_spec 0 late_days); try lia.
  - reflexivity.
  - rewrite dval_mul, dval_of_int.
    assert (dval LATE_FINE_PER_DAY == 500)%Q as -> by reflexivity.
    ring.
Qed.

(** A level outside the table is charged nothing, and nothing is raised:
    the function is total. *)
Lemma damage_fine_out_of_range rental damage_level :
  damage_level < 0 ∨ 3 < damage_level →
  (dval (calculate_damage_fine rental damage_level) == 0)%Q.
Proof.
  intros H. rewrite damage_fine_value. unfold Spec.damage_multiplier.
  destruct (Z.eqb_spec damage_level 1); [lia|].
  destruct (Z.eqb_spec damage_level 2); [lia|].
  destruct (Z.eqb_spec damage_level 3); [lia|].
  ring.
Qed.

(** C6. For every rental with deposit D and all integers damage_level and
    late_days, calculate_total_fines is D * M(damage_level) +
    L(late_days): M is the table 0: 0.0, 1: 0.1, 2: 0.3, 3: 0.5 with every
    other level taken as level 0, L is late_days * 500.00 for late_days > 0
    and 0 otherwise; the total is calculate_damage_fine plus
    calculate_late_fine. *)
Theorem total_fines_formula rental damage_level late_days :
  (dval (calculate_total_fines rental damage_level late_days)
   == dval (deposit rental) * Spec.damage_multiplier damage_level
      + Spec.late_fine late_days)%Q
  ∧ (dval (calculate_total_fines rental damage_level late_days)
     == dval (calculate_damage_fine rental damage_level)
        + dval (calculate_late_fine rental late_days))%Q
  ∧ Spec.damage_multiplier <$> [0; 1; 2; 3] = [0; 1 # 10; 3 # 10; 5 # 10]%Q
  ∧ (dval (calculate_damage_fine rental damage_level)
     == if bool_decide (0 <= damage_level <= 3)%Z
        then dval (deposit rental) * Spec.damage_multiplier damage_level
        else 0)%Q.
Proof.
  unfold calculate_total_fines. rewrite dval_add.
  split; [by rewrite damage_fine_value, late_fine_value|].
  split; [reflexivity|]. split; [reflexivity|].
  case_bool_decide as H; [apply damage_fine_value|].
  apply damage_fine_out_of_range. lia.
Qed.

(** End to end: deposit 3000, damage level 2, three days late. *)
Example total_fines_sample :
  calculate_total_fines Sample.rental 2 3 = lit 2400000 3.
Proof. reflexivity. Qed.

(** The refund whatever the fines are. *)
Lemma refund_value rental total_fines :
  (dval (calculate_refund rental total_fines)
   == Qmax (dval (deposit rental) - dval total_fines) 0)%Q.
Proof.
  unfold calculate_refund.
  by rewrite dval_max, dval_sub, dval_zero.
Qed.

(** C7. For every rental with deposit D and every total_fines F >= 0,
    calculate_refund is max(D - F, 0): never negative, and D - F whenever
    F <= D. *)
Theorem refund_formula rental total_fines :
  (0 <= dval total_fines)%Q →
  (dval (calculate_refund rental total_fines)
   == Qmax (dval (deposit rental) - dval total_fines) 0)%Q
  ∧ (0 <= dval (calculate_refund rental total_fines))%Q
  ∧ ((dval total_fines <= dval (deposit rental))%Q →
     (dval (calculate_refund rental total_fines)
      == dval (deposit rental) - dval total_fines)%Q).
Proof.
  intros _. split; [apply refund_value|]. split.
  - rewrite refund_value. apply Q.le_max_r.
  - intros Hle. rewrite refund_value. apply Q.max_l.
    rewrite <- (Qplus_opp_r (dval total_fines)).
    apply Qplus_le_l, Hle.
Qed.

Lemma refund_formula_witness :
  (dval (calculate_refund Sample.rental (lit 2400000 3)) == 600)%Q.
Proof.
  destruct (refund_formula Sample.rental (lit 2400000 3)) as (_ & _ & H).
  - unfold Qle; simpl; lia.
  - rewrite H; [reflexivity|]. unfold Qle; simpl; lia.
Defined.

(** ** Date validation *)

(** The outcomes of validate_rental_dates, in the day count the function
    itself uses, (end - start).days. It is a function of the clock and the
    two dates alone: no store goes in or comes out. *)
Lemma validate_rental_dates_outcomes today s e :
  let v := validate_rental_dates today s e in
  (v = (true, msg_empty) ↔
     today <= s ∧ s < e ∧ days_between s e <= 365 ∧ 1 <= days_between s e)
  ∧ (v = (true, msg_empty)
     ∨ (s < today ∧ v = (false, msg_start_in_past))
     ∨ (today <= s ∧ e <= s ∧ v = (false, msg_end_not_after_start))
     ∨ (today <= s ∧ s < e ∧ 365 < days_between s e
        ∧ v = (false, msg_max_duration 365))).
Proof.
  unfold validate_rental_dates, days_between. simpl.
  destruct (Z.ltb_spec s today) as [H1|H1].
  { split; [split; [discriminate|lia] | right; left; done]. }
  destruct (Z.leb_spec e s) as [H2|H2].
  { split; [split; [discriminate|lia] | right; right; left; done]. }
  rewrite Z.gtb_ltb.
  destruct (Z.ltb_spec 365 (e - s)) as [H3|H3].
  { split; [split; [discriminate|lia] | right; right; right; done]. }
  destruct (Z.ltb_spec (e - s) 1) as [H4|H4]; [lia|].
  split; [split; [lia|done] | left; done].
Qed.


(** X27. validate_rental_dates in the program's own day count, both end
    days included: it accepts exactly the windows that do not start in the
    past and have from 2 to 366 days; a window it refuses gets the message
    of the first failing check. *)
Theorem validate_rental_dates_inclusive today s e :
  let days := days_between s e + 1 in
  let v := validate_rental_dates today s e in
  (v = (true, msg_empty) ↔ today <= s ∧ 2 <= days <= 366)
  ∧ (s < today → v = (false, msg_start_in_past))
  ∧ (today <= s → days <= 1 → v = (false, msg_end_not_after_start))
  ∧ (today <= s → 366 < days → v = (false, msg_max_duration 365)).
Proof.
  unfold validate_rental_dates, days_between. simpl.
  destruct (Z.ltb_spec s today) as [H1|H1].
  { repeat split; try discriminate; lia. }
  destruct (Z.leb_spec e s) as [H2|H2].
  { repeat split; try discriminate; lia. }
  rewrite Z.gtb_ltb.
  destruct (Z.ltb_spec 365 (e - s)) as [H3|H3].
  { repeat split; try discriminate; lia. }
  destruct (Z.ltb_spec (e - s) 1) as [H4|H4]; [lia|].
  repeat split; try discriminate; lia.
Qed.

(** X14. The fourth check of validate_rental_dates never fires: a window
    that passed the second one has at least one day. *)
Lemma validate_rental_dates_min_unreachable today s e :
  validate_rental_dates today s e ≠ (false, msg_min_duration).
Proof.
  unfold validate_rental_dates, days_between.
  destruct (Z.ltb_spec s today); [discriminate|].
  destruct (Z.leb_spec e s); [discriminate|].
  rewrite Z.gtb_ltb.
  destruct (Z.ltb_spec 365 (e - s)); [discriminate|].
  destruct (Z.ltb_spec (e - s) 1); [lia|discriminate].
Qed.

(** ** Deposit *)

Lemma date_add_Ok d n :
  -999999999 <= n <= 999999999 → 0 < d + n <= MAXORDINAL →
  date_add d n = Ok (d + n).
Proof.
  intros Hn Ho. unfold date_add.
  destruct (Z.ltb_spec n (-999999999)); [lia|].
  destruct (Z.ltb_spec 999999999 n); [lia|]. simpl.
  destruct (Z.ltb_spec 0 (d + n)); [|lia].
  destruct (Z.leb_spec (d + n) MAXORDINAL); [done|lia].
Qed.

Lemma date_add_Raise d n :
  MAXORDINAL < d + n → date_add d n = Raise OverflowError.
Proof.
  intros Ho. unfold date_add.
  destruct (_ || _); [done|].
  destruct (Z.leb_spec (d + n) MAXORDINAL); [lia|].
  by rewrite andb_false_r.
Qed.

(** X15. What the deposit is when the estimate window fits the calendar:
    30% of the Combined price of the window [today, today + rental_days],
    whose day count is rental_days + 1. *)
Lemma calculate_deposit_value today car rental_days :
  valid_date today → valid_date (today + rental_days) →
  ∃ d, calculate_deposit today car rental_days = Ok d
    ∧ d = (calculate_price today CombinedPricingStrategy car
             today (today + rental_days)%Z * lit 3 1)%dec
    ∧ (dval d ==
       (3 # 10) * (dval (daily_price car) * inject_Z (rental_days + 1)
         * Spec.year_multiplier (date_year today - car_year car)
         * (1 - Spec.duration_discount (rental_days + 1))))%Q.
Proof.
  unfold valid_date, MINORDINAL, MAXORDINAL. intros Ht Hmax.
  unfold calculate_deposit. rewrite date_add_Ok by (unfold MAXORDINAL; lia).
  rewrite get_default_strategy_combined.
  eexists. split; [reflexivity|]. split; [reflexivity|].
  rewrite dval_mul, combined_price_value.
  replace (days_between today (today + rental_days) + 1) with (rental_days + 1)
    by (unfold days_between; lia).
  assert (dval (lit 3 1) == 3 # 10)%Q as -> by reflexivity.
  ring.
Qed.

(** C4, at 1000.00 a day, a car of this year and rental_days = 10: the
    code returns 3762.000000, which is 30% of the price of the eleven
    days from today to today + 10; 30% of the Combined price of a ten-day
    window starting today is 3420. *)
Theorem calculate_deposit_ten_days :
  calculate_deposit Sample.today Sample.car 10 = Ok (lit 3762000000 6)
  ∧ (dval (lit 3762000000 6) == 3762)%Q
  ∧ lit 3762000000 6 =
      (calculate_price Sample.today get_default_strategy Sample.car
         Sample.today (Sample.today + 10)%Z * lit 3 1)%dec
  ∧ days_between Sample.today (Sample.today + 10) + 1 = 11
  ∧ days_between Sample.today (Sample.today + 9) + 1 = 10
  ∧ (dval (calculate_price Sample.today get_default_strategy Sample.car
             Sample.today (Sample.today + 9)%Z * lit 3 1)%dec == 3420)%Q.
Proof. repeat split. Qed.

(** ** Rental creation *)

(** Every outcome of the body of create_rental, before [atomic] has a
    say: a rejected request leaves the store as it found it, so each
    rejection is raised before the first write. *)
Lemma create_rental_body_outcome today client car s e name st :
  create_rental_body today client car s e name st =
    if negb (is_available car) then
      (Raise (ValueError (msg_car_unavailable car)), st)
    else if s <? today then (Raise (ValueError msg_start_in_past), st)
    else if e <=? s then (Raise (ValueError msg_end_not_after_start), st)
    else
      match calculate_deposit today car (days_between s e + 1) with
      | Raise ex => (Raise ex, st)
      | Ok dep =>
          let pk := fresh (dom (rentals st)) in
          let r := created_rental today client car s e name dep pk in
          match Rental_prep r with
          | Raise ex => (Raise ex, st)
          | Ok row =>
              let rs := <[pk := row]> (rentals st) in
              match DecimalField_prep dep with
              | Raise ex =>
                  (Raise ex, mkStore (cars st) rs (fines st) (payments st))
              | Ok amount =>
                  let ps :=
                    payments st ++ [mkPayment pk deposit_payment amount] in
                  match Car_prep (set_car_status rented car) with
                  | Raise ex =>
                      (Raise ex, mkStore (cars st) rs (fines st) ps)
                  | Ok car_row =>
                      (Ok r,
                       mkStore (<[car_pk car := car_row]> (cars st)) rs
                         (fines st) ps)
                  end
              end
          end
      end.
Proof.
  unfold create_rental_body.
  destruct (negb (is_available car)); [done|].
  destruct (s <? today); [done|].
  destruct (e <=? s); [done|].
  unfold mbind, M_bind, lift.
  destruct (calculate_deposit today car (days_between s e + 1)) as [dep|];
    [|done].
  unfold Rental_objects_create, created_rental. simpl.
  destruct (Rental_prep _); [|done].
  unfold Payment_objects_create. simpl.
  destruct (DecimalField_prep dep); [|done].
  unfold car_save. simpl.
  destruct (Car_prep _); done.
Qed.

(** The primary key of the new rental is one no rental had. *)
Lemma fresh_rental_pk st : rentals st !! fresh (dom (rentals st)) = None.
Proof. apply not_elem_of_dom, is_fresh. Qed.

(** When the deposit estimate raises: only on the window from today to
    the last day of the calendar. *)
Lemma calculate_deposit_window today car s e :
  valid_date today → valid_date s → valid_date e → today <= s → s < e →
  (s = today ∧ e = MAXORDINAL
   ∧ calculate_deposit today car (days_between s e + 1) = Raise OverflowError)
  ∨ (¬ (s = today ∧ e = MAXORDINAL)
     ∧ ∃ dep, calculate_deposit today car (days_between s e + 1) = Ok dep).
Proof.
  unfold valid_date, MINORDINAL, days_between. intros Ht Hs He Hts Hse.
  unfold calculate_deposit.
  destruct (decide (s = today ∧ e = MAXORDINAL)) as [[-> ->]|Hne].
  - left. rewrite date_add_Raise by lia. done.
  - right. split; [done|].
    rewrite date_add_Ok by (unfold MAXORDINAL in *; lia). eauto.
Qed.

(** A booking whose amounts fit their columns. *)
Lemma create_rental_success today client car s e name st dep :
  car_status car = available → today <= s → s < e →
  calculate_deposit today car (days_between s e + 1) = Ok dep →
  booking_fits today car s e name = true →
  let pk := fresh (dom (rentals st)) in
  let r := created_rental today client car s e name dep pk in
  create_rental today client car s e name st =
    (Ok r,
     mkStore (<[car_pk car := Car_row (set_car_status rented car)]> (cars st))
       (<[pk := Rental_row r]> (rentals st)) (fines st)
       (payments st ++ [mkPayment pk deposit_payment (quantize2 dep)])).
Proof.
  intros Hav Hts Hse Hdep Hfits. simpl.
  unfold booking_fits in Hfits. rewrite Hdep in Hfits.
  apply andb_prop in Hfits as [[Hcar Hcost]%andb_prop Hd].
  unfold create_rental, atomic. rewrite create_rental_body_outcome.
  unfold is_available. rewrite bool_decide_eq_true_2 by done. simpl.
  destruct (Z.ltb_spec s today); [lia|].
  destruct (Z.leb_spec e s); [lia|].
  rewrite Hdep.
  rewrite Rental_prep_Ok, (DecimalField_prep_Ok dep Hd), Car_prep_Ok; try done.
  unfold rental_fits, created_rental; simpl.
  apply andb_prop in Hcar as [-> _]. by rewrite Hd, Hcost.
Qed.

(** A booking with an amount that does not fit: the write that meets it
    raises, and the transaction leaves the store as it was. *)
Lemma create_rental_unfit today client car s e name st dep :
  car_status car = available → today <= s → s < e →
  calculate_deposit today car (days_between s e + 1) = Ok dep →
  booking_fits today car s e name = false →
  ∃ ex, create_rental today client car s e name st = (Raise ex, st)
    ∧ (ex = InvalidOperation ∨ ex = OverflowError).
Proof.
  intros Hav Hts Hse Hdep Hfits.
  unfold booking_fits in Hfits. rewrite Hdep in Hfits.
  unfold create_rental, atomic. rewrite create_rental_body_outcome.
  unfold is_available. rewrite bool_decide_eq_true_2 by done. simpl.
  destruct (Z.ltb_spec s today); [lia|].
  destruct (Z.leb_spec e s); [lia|].
  rewrite Hdep.
  unfold Rental_prep, DecimalField_prep, Car_prep, car_fits, created_rental
    in *; simpl in *.
  destruct (fits_column dep), (fits_column (daily_price car)),
    (fits_column (calculate_price _ _ _ _ _)), (fits_integer (car_year car));
    simpl in *; try discriminate; eauto.
Qed.


(** End to end: a car at 1000.00 a day, of this year, for the ten days
    from today. The cost is 1000 * 10 * 1.2 * 0.95; the rental starts
    active, its row and its deposit payment are stored in cents and the
    car is rented. *)
Example create_rental_sample :
  ∃ r st',
    create_rental Sample.today 7 Sample.car Sample.today (Sample.today + 9)
      "combined" Sample.store = (Ok r, st')
    ∧ total_cost r = lit 1140000000 5
    ∧ deposit r = lit 3762000000 6
    ∧ status r = active
    ∧ rentals st' !! rental_pk r = Some (Rental_row r)
    ∧ total_cost (Rental_row r) = lit 1140000 2
    ∧ payments st' = [mkPayment (rental_pk r) deposit_payment (lit 376200 2)]
    ∧ car_status <$> cars st' !! 1 = Some rented.
Proof.
  unfold create_rental, atomic. rewrite create_rental_body_outcome.
  eexists _, _. split; [reflexivity|]. simpl.
  repeat split.
Qed.

(** C2, on the window from today to 9999-12-31. The car is available, the
    start is not in the past and the end is after the start, so no
    documented rejection applies; the deposit estimate asks for the day
    after the last one of the calendar and create_rental fails with an
    OverflowError. Nothing has been written when it does. *)
Theorem create_rental_overflow :
  valid_date Sample.today ∧ valid_date MAXORDINAL
  ∧ car_status Sample.car = available
  ∧ ¬ (Sample.today < Sample.today) ∧ ¬ (MAXORDINAL <= Sample.today)
  ∧ create_rental Sample.today 7 Sample.car Sample.today MAXORDINAL
      "combined" Sample.store
    = (Raise OverflowError, Sample.store)
  ∧ create_rental_body Sample.today 7 Sample.car Sample.today MAXORDINAL
      "combined" Sample.store
    = (Raise OverflowError, Sample.store)
  ∧ Spec.error_kind OverflowError = None.
Proof.
  unfold create_rental, atomic. rewrite create_rental_body_outcome.
  unfold valid_date, MINORDINAL, MAXORDINAL, Sample.today.
  repeat split; lia.
Qed.

(** ** The status sweep *)

Section Sweep.

Variable today : date.

(** What [.update(status='active')] and [.update(status='overdue')] do to
    one row. *)
Local Abbreviation activate := (update_row (pending_to_active today) active).
Local Abbreviation expire := (update_row (overdue_rentals today) overdue).
Local Abbreviation count := count_rows.

Lemma update_overdue_rentals_unfold st :
  update_overdue_rentals today st =
    (Ok (count (pending_to_active today) (rentals st)
         + count (overdue_rentals today) (activate <$> rentals st))%nat,
     mkStore (cars st) (expire <$> (activate <$> rentals st))
       (fines st) (payments st)).
Proof. reflexivity. Qed.

(** Counting over a table. *)
Lemma count_fmap P f m : count P (f <$> m) = count (P ∘ f) m.
Proof.
  unfold count_rows. rewrite map_filter_fmap, map_size_fmap. f_equal.
Qed.

Lemma count_ext P Q m :
  (∀ i r, m !! i = Some r → P r = Q r) → count P m = count Q m.
Proof.
  intros H. unfold count_rows. f_equal. apply map_filter_ext.
  intros i r Hi; simpl. by rewrite (H i r Hi).
Qed.

Lemma count_none P m :
  (∀ i r, m !! i = Some r → P r = false) → count P m = 0%nat.
Proof.
  intros H. unfold count_rows. apply map_size_empty_iff, map_empty. intros i.
  apply map_lookup_filter_None. right. intros r Hi; simpl.
  rewrite (H i r Hi). discriminate.
Qed.

Lemma count_orb P Q m :
  (∀ r, P r && Q r = false) →
  count (λ r, P r || Q r) m = (count P m + count Q m)%nat.
Proof.
  intros Hdisj. unfold count_rows.
  rewrite <- map_size_disj_union.
  - f_equal. rewrite <- map_filter_or. apply map_filter_ext.
    intros i r _; simpl. rewrite orb_true_iff. done.
  - apply map_disjoint_spec. intros i x y Hx Hy.
    apply map_lookup_filter_Some in Hx as [Hx HP].
    apply map_lookup_filter_Some in Hy as [Hy HQ].
    simpl in *. simplify_eq. specialize (Hdisj x).
    rewrite HP, HQ in Hdisj. discriminate.
Qed.

(** Rows. *)
Lemma expire_activate r : expire (activate r) = Spec.swept today r.
Proof.
  unfold update_row, Spec.swept, overdue_rentals, pending_to_active.
  destruct r as [? ? ? ? ? ? ? ? ? st ? ?]; simpl.
  destruct st, (_ <=? today), (_ <? today); reflexivity.
Qed.

Lemma swept_not_pending_to_active r :
  pending_to_active today (Spec.swept today r) = false.
Proof.
  unfold Spec.swept, overdue_rentals, pending_to_active.
  destruct r as [? ? ? ? ? ? ? ? ? st ? ?]; simpl.
  destruct st, (_ <=? today) eqn:E1, (_ <? today) eqn:E2; simpl;
    rewrite ?E1, ?E2; reflexivity.
Qed.

Lemma swept_not_overdue_rentals r :
  overdue_rentals today (Spec.swept today r) = false.
Proof.
  unfold Spec.swept, overdue_rentals, pending_to_active.
  destruct r as [? ? ? ? ? ? ? ? ? st ? ?]; simpl.
  destruct st, (_ <=? today) eqn:E1, (_ <? today) eqn:E2; simpl;
    rewrite ?E1, ?E2; reflexivity.
Qed.

Lemma overdue_after_activate r :
  overdue_rentals today (activate r) =
  overdue_rentals today r || Spec.pending_and_expired today r.
Proof.
  unfold update_row, Spec.pending_and_expired, overdue_rentals, pending_to_active.
  destruct r as [? ? ? ? ? ? ? ? ? st ? ?]; simpl.
  destruct st, (_ <=? today), (_ <? today); reflexivity.
Qed.

Lemma pending_after_expire r :
  pending_to_active today (expire r) = pending_to_active today r.
Proof.
  unfold update_row, overdue_rentals, pending_to_active.
  destruct r as [? ? ? ? ? ? ? ? ? st ? ?]; simpl.
  destruct st, (_ <=? today), (_ <? today); reflexivity.
Qed.

Lemma activate_expire r :
  Spec.pending_and_expired today r = false →
  activate (expire r) = expire (activate r).
Proof.
  unfold update_row, Spec.pending_and_expired, overdue_rentals,
    pending_to_active.
  destruct r as [? ? ? ? ? ? ? ? ? st ? ?]; simpl.
  destruct st, (_ <=? today), (_ <? today); simpl; done.
Qed.

Lemma overdue_pending_disjoint r :
  overdue_rentals today r && Spec.pending_and_expired today r = false.
Proof.
  unfold Spec.pending_and_expired, overdue_rentals, pending_to_active.
  destruct (status r), (_ <=? today), (_ <? today); reflexivity.
Qed.

(** The transitions as the specification words them are the querysets
    of the code. *)
Lemma starts_due_queryset r :
  Spec.starts_due today r = pending_to_active today r.
Proof.
  unfold Spec.starts_due, pending_to_active. apply eq_true_iff_eq.
  rewrite andb_true_iff, !bool_decide_eq_true, Z.leb_le. tauto.
Qed.

Lemma ends_overdue_queryset r :
  Spec.ends_overdue today r = overdue_rentals today r.
Proof.
  unfold Spec.ends_overdue, overdue_rentals. apply eq_true_iff_eq.
  rewrite andb_true_iff, !bool_decide_eq_true, Z.ltb_lt. tauto.
Qed.

Lemma stale_queryset r :
  Spec.stale today r = Spec.pending_and_expired today r.
Proof.
  unfold Spec.stale, Spec.pending_and_expired, pending_to_active.
  apply eq_true_iff_eq.
  rewrite !andb_true_iff, !bool_decide_eq_true, Z.leb_le, Z.ltb_lt. tauto.
Qed.

Lemma after_sweep_swept r : Spec.after_sweep today r = Spec.swept today r.
Proof.
  unfold Spec.after_sweep, Spec.transitioned, Spec.swept.
  rewrite stale_queryset, starts_due_queryset, ends_overdue_queryset.
  unfold Spec.pending_and_expired.
  destruct (pending_to_active today r), (_ <? today); reflexivity.
Qed.

Lemma starts_due_ends_overdue_disjoint r :
  Spec.starts_due today r && Spec.ends_overdue today r = false.
Proof.
  unfold Spec.starts_due, Spec.ends_overdue.
  apply andb_false_iff. rewrite !bool_decide_eq_false.
  destruct (status r); intuition congruence.
Qed.

Lemma update_overdue_rentals_swapped_unfold st :
  Spec.update_overdue_rentals_swapped today st =
    (Ok (count (pending_to_active today) (expire <$> rentals st)
         + count (overdue_rentals today) (rentals st))%nat,
     mkStore (cars st) (activate <$> (expire <$> rentals st))
       (fines st) (payments st)).
Proof.
  transitivity
    (Ok (count (Spec.starts_due today)
           (update_row (Spec.ends_overdue today) overdue <$> rentals st)
         + count (Spec.ends_overdue today) (rentals st))%nat,
     mkStore (cars st)
       (update_row (Spec.starts_due today) active
        <$> (update_row (Spec.ends_overdue today) overdue <$> rentals st))
       (fines st) (payments st)); [reflexivity|].
  assert (update_row (Spec.ends_overdue today) overdue <$> rentals st
          = expire <$> rentals st) as ->.
  { apply map_fmap_ext. intros i r _. unfold update_row.
    by rewrite ends_overdue_queryset. }
  f_equal.
  - f_equal. f_equal; apply count_ext; intros i r _;
      [apply starts_due_queryset | apply ends_overdue_queryset].
  - f_equal. apply map_fmap_ext. intros i r _. unfold update_row.
    by rewrite starts_due_queryset.
Qed.

(** The state and the count one sweep leaves. *)
Lemma update_overdue_rentals_result st :
  update_overdue_rentals today st =
    (Ok (count (pending_to_active today) (rentals st)
         + count (overdue_rentals today) (rentals st)
         + count (Spec.pending_and_expired today) (rentals st))%nat,
     mkStore (cars st) (Spec.swept today <$> rentals st)
       (fines st) (payments st)).
Proof.
  rewrite update_overdue_rentals_unfold. f_equal.
  - f_equal. rewrite count_fmap.
    rewrite (count_ext (overdue_rentals today ∘ activate)
               (λ r, overdue_rentals today r
                     || Spec.pending_and_expired today r)).
    + rewrite count_orb by apply overdue_pending_disjoint.
      apply Nat.add_assoc.
    + intros i r _. apply overdue_after_activate.
  - f_equal. rewrite <- map_fmap_compose. apply map_fmap_ext.
    intros i r _. apply expire_activate.
Qed.

Lemma swept_idempotent r : Spec.swept today (Spec.swept today r) = Spec.swept today r.
Proof.
  unfold Spec.swept at 1.
  by rewrite swept_not_pending_to_active, swept_not_overdue_rentals.
Qed.

(** C8. The sweep is idempotent: run again on the store the first run
    left, with the same current date and nothing written in between, it
    returns 0 (and changes no row). *)
Theorem update_overdue_rentals_idempotent st :
  let st1 := (update_overdue_rentals today st).2 in
  update_overdue_rentals today st1 = (Ok 0%nat, st1).
Proof.
  intros st1. subst st1. rewrite (update_overdue_rentals_result st). simpl.
  rewrite update_overdue_rentals_result. simpl.
  rewrite !count_none.
  - do 2 f_equal. rewrite <- map_fmap_compose. apply map_fmap_ext.
    intros i r _. apply swept_idempotent.
  - intros i r [r0 [<- _]]%lookup_fmap_Some.
    unfold Spec.pending_and_expired.
    by rewrite swept_not_pending_to_active.
  - intros i r [r0 [<- _]]%lookup_fmap_Some. apply swept_not_overdue_rentals.
  - intros i r [r0 [<- _]]%lookup_fmap_Some. apply swept_not_pending_to_active.
Qed.

(** C5, amended. The sweep makes every pending rental with start_date <=
    today active and every active rental with expected_end_date < today
    overdue; transition (b) runs on what (a) left, so a pending rental
    with start_date <= today and expected_end_date < today ends overdue in
    the same call. Nothing else is changed. The two sets of rentals, as
    the call finds them, are disjoint. When the store holds no pending
    rental that has both started and expired, every rental is taken by at
    most one transition, the call returns the number of rentals taken, and
    (b) before (a) gives the same store and the same count. *)
Theorem update_overdue_rentals_sequential st :
  let out := update_overdue_rentals today st in
  rentals out.2 = Spec.after_sweep today <$> rentals st
  ∧ cars out.2 = cars st ∧ fines out.2 = fines st
  ∧ payments out.2 = payments st
  ∧ (∀ r, Spec.starts_due today r && Spec.ends_overdue today r = false)
  ∧ ((∀ k r, rentals st !! k = Some r → Spec.stale today r = false) →
     rentals out.2 = Spec.transitioned today <$> rentals st
     ∧ out.1 = Ok (count (λ r, Spec.starts_due today r
                               || Spec.ends_overdue today r) (rentals st))
     ∧ Spec.update_overdue_rentals_swapped today st = out).
Proof.
  intros out. subst out.
  rewrite update_overdue_rentals_result. simpl.
  split.
  { apply map_fmap_ext. intros i r _. symmetry. apply after_sweep_swept. }
  do 3 (split; [reflexivity|]).
  split; [apply starts_due_ends_overdue_disjoint|].
  intros Hnone.
  assert (∀ k r, rentals st !! k = Some r →
                 Spec.pending_and_expired today r = false) as Hnone'.
  { intros k r Hk. rewrite <- stale_queryset. eauto. }
  rewrite (count_none (Spec.pending_and_expired today)) by done.
  split; [|split].
  - apply map_fmap_ext. intros i r Hi.
    rewrite <- after_sweep_swept. unfold Spec.after_sweep.
    by rewrite (Hnone i r Hi).
  - f_equal. rewrite Nat.add_0_r.
    rewrite count_orb by apply starts_due_ends_overdue_disjoint.
    f_equal; apply count_ext; intros i r _;
      [symmetry; apply starts_due_queryset
      | symmetry; apply ends_overdue_queryset].
  - rewrite update_overdue_rentals_swapped_unfold. f_equal.
    + f_equal. rewrite count_fmap.
      rewrite (count_ext (pending_to_active today ∘ expire)
                 (pending_to_active today))
        by (intros i r _; apply pending_after_expire).
      by rewrite Nat.add_0_r.
    + f_equal. rewrite <- map_fmap_compose. apply map_fmap_ext.
      intros i r Hi; simpl.
      rewrite activate_expire by eauto. apply expire_activate.
Qed.

End Sweep.

Lemma update_overdue_rentals_sequential_witness :
  let out := update_overdue_rentals Sample.today Sample.due_store in
  out.1 = Ok 2%nat
  ∧ status <$> rentals out.2 !! 1 = Some active
  ∧ status <$> rentals out.2 !! 2 = Some overdue
  ∧ Spec.update_overdue_rentals_swapped Sample.today Sample.due_store = out.
Proof.
  destruct (update_overdue_rentals_sequential Sample.today Sample.due_store)
    as (_ & _ & _ & _ & _ & H).
  destruct H as (H1 & H2 & H3).
  { intros k r Hk. change (rentals Sample.due_store) with
      ({[ 1 := Sample.due_rental; 2 := Sample.late_rental ]} : gmap Z Rental)
      in Hk.
    apply lookup_insert_Some in Hk as [[_ <-]|[_ Hk]]; [reflexivity|].
    apply lookup_singleton_Some in Hk as [_ <-]. reflexivity. }
  split; [exact H2|]. rewrite H1.
  split; [reflexivity|]. split; [reflexivity|]. exact H3.
Defined.

(** C5 as worded fails on a booking that no sweep has seen between its
    start and its end: the one rental of the store is pending, has
    started and has expired; (a) takes it and (b) takes what (a) made of
    it, so the two orders disagree on the status the rental ends with and
    on the count. *)
Lemma update_overdue_rentals_order_matters :
  size (rentals Sample.stale_store) = 1%nat
  ∧ rentals Sample.stale_store !! 1 = Some Sample.stale_rental
  ∧ Spec.stale Sample.today Sample.stale_rental = true
  ∧ (update_overdue_rentals Sample.today Sample.stale_store).1 = Ok 2%nat
  ∧ (Spec.update_overdue_rentals_swapped Sample.today Sample.stale_store).1
    = Ok 1%nat
  ∧ status <$> rentals (update_overdue_rentals Sample.today
                          Sample.stale_store).2 !! 1 = Some overdue
  ∧ status <$> rentals (Spec.update_overdue_rentals_swapped Sample.today
                          Sample.stale_store).2 !! 1 = Some active
  ∧ update_overdue_rentals Sample.today Sample.stale_store
    ≠ Spec.update_overdue_rentals_swapped Sample.today Sample.stale_store.
Proof.
  repeat split; try (vm_compute; reflexivity).
  intros H. apply (f_equal fst) in H. vm_compute in H. discriminate.
Qed.

(** ** Rental completion *)

Lemma fine_rows_deposit r r' dl ld :
  rental_pk r' = rental_pk r → deposit r' = deposit r →
  fine_rows r' dl ld = fine_rows r dl ld.
Proof.
  intros Hpk Hdep. unfold fine_rows, calculate_damage_fine, calculate_late_fine.
  by rewrite Hpk, Hdep.
Qed.

Lemma _create_fine_records_outcome rental damage_level late_days st :
  forallb (λ f, fits_column (fine_amount f))
          (fine_rows rental damage_level late_days) = true →
  _create_fine_records rental damage_level late_days st =
    (Ok (), mkStore (cars st) (rentals st)
              (fines st
               ++ (stored_fine <$> fine_rows rental damage_level late_days))
              (payments st)).
Proof.
  unfold _create_fine_records, fine_rows, mbind, M_bind, mret, M_ret,
    Fine_objects_create, DecimalField_prep.
  destruct st as [cs rs fs ps].
  destruct (0 <? damage_level), (0 <? late_days); simpl;
    rewrite ?andb_true_r; intros H;
    try (apply andb_prop in H as [H1 H2]); rewrite ?H, ?H1; simpl;
    rewrite ?H2; simpl;
    rewrite ?app_nil_r, <- ?app_assoc; reflexivity.
Qed.

(** A completion whose amounts and integers fit their columns, on a
    rental whose car row exists. *)
Lemma complete_rental_success today r aed dl ld st car :
  cars st !! car_id r = Some car →
  completion_fits today r car aed dl ld = true →
  let total_fines := calculate_total_fines r dl ld in
  let refund := calculate_refund r total_fines in
  let r' := completed_rental today r car aed dl ld in
  complete_rental today r aed dl ld st =
    (Ok (r', total_fines, refund),
     mkStore
       (<[car_pk car := Car_row (set_car_status available car)]> (cars st))
       (<[rental_pk r := Rental_row r']> (rentals st))
       (fines st ++ (stored_fine <$> fine_rows r dl ld))
       (payments st ++
        if is_positive refund
        then [mkPayment (rental_pk r) refund_payment (quantize2 refund)]
        else [])).
Proof.
  intros Hcar Hfits. simpl.
  unfold completion_fits in Hfits.
  apply andb_prop in Hfits as [[[Hc Hr]%andb_prop Hf]%andb_prop Hp].
  unfold complete_rental, atomic, complete_rental_body.
  unfold mbind at 1, M_bind at 1, rental_car at 1. simpl. rewrite Hcar.
  rewrite get_default_strategy_combined.
  change (set_total_cost _ (set_total_cost _ _))
    with (completed_rental today r car aed dl ld).
  unfold mbind at 1, M_bind at 1, rental_save at 1.
  rewrite (Rental_prep_Ok _ Hr).
  unfold mbind at 1, M_bind at 1.
  rewrite <- (fine_rows_deposit r (completed_rental today r car aed dl ld))
    in Hf by reflexivity.
  rewrite (_create_fine_records_outcome _ _ _ _ Hf).
  rewrite (fine_rows_deposit r (completed_rental today r car aed dl ld))
    by reflexivity.
  unfold mbind, M_bind, Payment_objects_create, car_save, mret, M_ret.
  rewrite (Car_prep_Ok (set_car_status available car) Hc).
  destruct (is_positive _); simpl.
  - rewrite (DecimalField_prep_Ok _ Hp). reflexivity.
  - rewrite app_nil_r. reflexivity.
Qed.

(** A positive payment column comes from a positive refund. *)
Lemma quantize2_positive d :
  (0 < dval (quantize2 d))%Q → is_positive d = true.
Proof.
  intros Hq. destruct (is_positive d) eqn:Hd; [done|].
  apply is_positive_lt in Hq. unfold is_positive in Hq, Hd.
  apply Z.ltb_lt in Hq. apply Z.ltb_ge in Hd.
  enough (coeff (quantize2 d) <= 0) by lia.
  apply quantize2_le. rewrite dval_Qmake.
  unfold Qle, Qdiv, Qmult, Qinv; simpl. lia.
Qed.




Lemma stored_late_fine r ld :
  quantize2 (calculate_late_fine r ld) = calculate_late_fine r ld.
Proof.
  apply quantize2_fixed. unfold calculate_late_fine.
  by destruct (ld <=? 0).
Qed.

Lemma dval_quantize2 d :
  (dval (quantize2 d) == inject_Z (coeff (quantize2 d)) / 100)%Q.
Proof. unfold dval. by rewrite quantize2_scale. Qed.

(** X13. The Fine rows of a completion that fits its columns, and when
    their stored amounts are positive: one row for damage exactly when
    damage_level > 0 and one for lateness exactly when late_days > 0, each
    holding its fine rounded to cents; with a deposit of at least 0.10
    every row stored for lateness or for a damage level of 1, 2 or 3 holds
    at least 0.01. *)
Lemma complete_rental_fines today r aed dl ld st car :
  cars st !! car_id r = Some car →
  completion_fits today r car aed dl ld = true →
  ∃ r' st',
    complete_rental today r aed dl ld st
    = (Ok (r', calculate_total_fines r dl ld,
           calculate_refund r (calculate_total_fines r dl ld)), st')
    ∧ fines st' = fines st ++ (stored_fine <$> fine_rows r dl ld)
    ∧ stored_fine <$> fine_rows r dl ld =
        (if 0 <? dl then
           [mkFine (rental_pk r) (damage_reason dl)
              (quantize2 (calculate_damage_fine r dl))]
         else [])
        ++ (if 0 <? ld then
              [mkFine (rental_pk r) (late_reason ld)
                 (calculate_late_fine r ld)]
            else [])
    ∧ ((1 # 10 <= dval (deposit r))%Q → dl <= 3 →
       Forall (λ f, (1 # 100 <= dval (fine_amount f))%Q)
              (stored_fine <$> fine_rows r dl ld)).
Proof.
  intros Hcar Hfits.
  rewrite (complete_rental_success _ _ _ _ _ _ _ Hcar Hfits).
  eexists _, _. split; [reflexivity|]. split; [reflexivity|].
  split.
  { unfold fine_rows. rewrite fmap_app.
    destruct (0 <? dl), (0 <? ld); simpl; unfold stored_fine; simpl;
      by rewrite ?stored_late_fine. }
  intros Hdep Hdl. unfold fine_rows. rewrite fmap_app. apply Forall_app.
  split.
  - destruct (Z.ltb_spec 0 dl); constructor; [|constructor]. simpl.
    rewrite dval_quantize2.
    assert (1 <= coeff (quantize2 (calculate_damage_fine r dl))) as Hc.
    { apply quantize2_ge. rewrite damage_fine_value.
      assert (1 # 10 <= Spec.damage_multiplier dl)%Q as Hm.
      { unfold Spec.damage_multiplier.
        destruct (Z.eqb_spec dl 1); [done|].
        destruct (Z.eqb_spec dl 2); [done|].
        destruct (Z.eqb_spec dl 3); [done|lia]. }
      change (inject_Z 1 / 100)%Q with ((1 # 10) * (1 # 10))%Q.
      apply Qmult_le_compat_nonneg; split; try done. }
    unfold Qle, Qdiv, Qmult, Qinv; simpl. lia.
  - destruct (Z.ltb_spec 0 ld); constructor; [|constructor]. simpl.
    rewrite stored_late_fine, late_fine_value. unfold Spec.late_fine.
    destruct (Z.ltb_spec 0 ld); [|lia].
    unfold Qle, Qmult; simpl. lia.
Qed.

(** Below 0.10 the damage fine of level 1 rounds to nothing: on a deposit
    of 0.01 the Fine row stored holds 0.00. *)
Example complete_rental_small_deposit :
  ∃ r' st',
    complete_rental Sample.today Sample.cent_rental (Sample.today + 9) 1 0
      Sample.cent_store
    = (Ok (r', lit 1 3, lit 9 3), st')
    ∧ fines st' = [mkFine 1 (damage_reason 1) (lit 0 2)].
Proof.
  rewrite (complete_rental_success Sample.today Sample.cent_rental
             (Sample.today + 9) 1 0
             Sample.cent_store (set_car_status rented Sample.car)
             eq_refl eq_refl).
  eexists _, _. split; reflexivity.
Qed.

(** C10, at damage_level = 4 on a rental with deposit 3000.00: the
    completion is accepted and adds a damage Fine row whose amount is
    3000.00 * 0.0, which is zero. *)
Theorem complete_rental_zero_fine :
  ∃ r' st',
    complete_rental Sample.today Sample.rental (Sample.today + 9) 4 0
      Sample.rented_store
    = (Ok (r', lit 0 3, lit 3000000 3), st')
    ∧ fines st' = [mkFine 1 (damage_reason 4) (lit 0 2)]
    ∧ (dval (lit 0 2) == 0)%Q
    ∧ Forall (λ f, ¬ (0 < dval (fine_amount f))%Q) (fines st').
Proof.
  rewrite (complete_rental_success Sample.today Sample.rental
             (Sample.today + 9) 4 0
             Sample.rented_store (set_car_status rented Sample.car)
             eq_refl eq_refl).
  eexists _, _. split; [reflexivity|]. simpl.
  split; [reflexivity|]. split; [reflexivity|].
  repeat constructor. vm_compute. discriminate.
Qed.

(** ** More on pricing *)

Ltac by_brackets :=
  repeat match goal with
         | |- context [?a <=? ?b] => destruct (Z.leb_spec a b)
         | |- context [?a <? ?b] => destruct (Z.ltb_spec a b)
         end.

Ltac Q_to_Z :=
  unfold Qle, Qlt, Qeq, Qmult, Qminus, Qplus, Qopp, inject_Z; simpl.

(** Every strategy as a number: the daily price times the day count times
    its two factors. *)
Lemma price_value today strategy car s e :
  (dval (calculate_price today strategy car s e) ==
   dval (daily_price car) * inject_Z (days_between s e + 1)
   * year_factor today strategy car
   * duration_factor strategy (days_between s e + 1))%Q.
Proof.
  destruct strategy; unfold year_factor, duration_factor.
  - rewrite standard_price_value. ring.
  - unfold calculate_price. rewrite !dval_mul, dval_of_int.
    change (if date_year today - car_year car <=? 2 then lit 12 1 else _)
      with (_calculate_year_multiplier (date_year today - car_year car)).
    rewrite year_multiplier_value. ring.
  - unfold calculate_price. rewrite !dval_mul, dval_sub, dval_of_int.
    change (if days_between s e + 1 >=? 30 then lit 15 2 else _)
      with (_calculate_duration_discount (days_between s e + 1)).
    rewrite duration_discount_value.
    assert (dval (lit 10 1) == 1)%Q as -> by reflexivity. ring.
  - apply combined_price_value.
Qed.

Lemma year_factor_bounds today strategy car :
  (8 # 10 <= year_factor today strategy car <= 12 # 10)%Q.
Proof.
  unfold year_factor, Spec.year_multiplier.
  destruct strategy; by_brackets; split; Q_to_Z; lia.
Qed.

Lemma duration_factor_bounds strategy days :
  (85 # 100 <= duration_factor strategy days <= 1)%Q.
Proof.
  unfold duration_factor, Spec.duration_discount.
  destruct strategy; by_brackets; split; Q_to_Z; lia.
Qed.

(** X1. The price breakdown agrees with the strategies. Its final price is
    the Combined price, its base price the Standard price and its price
    with year the YearBased price, decimal for decimal; the year
    adjustment and the discount amount account for the differences. *)
Theorem price_details_consistent today car s e :
  let d := calculate_price_details today car s e in
  Details.final_price d = calculate_price today CombinedPricingStrategy car s e
  ∧ Details.base_price d = calculate_price today StandardPricingStrategy car s e
  ∧ Details.price_with_year d
    = calculate_price today YearBasedPricingStrategy car s e
  ∧ Details.days d = e - s + 1
  ∧ (dval (Details.price_with_year d)
     == dval (Details.base_price d) + dval (Details.year_adjustment d))%Q
  ∧ (dval (Details.final_price d)
     == dval (Details.price_with_year d)
        - dval (Details.duration_discount_amount d))%Q.
Proof.
  simpl. do 4 (split; [reflexivity|]). split.
  - rewrite dval_sub. ring.
  - rewrite !dval_mul, dval_sub.
    assert (dval (lit 10 1) == 1)%Q as -> by reflexivity. ring.
Qed.

(** X2. The strategies compose. YearBased is Standard times the year
    multiplier, DurationBased is Standard times (1 - discount), and
    Combined is either of them times the other factor. *)
Theorem strategies_compose today car s e :
  let price strategy := dval (calculate_price today strategy car s e) in
  let m := Spec.year_multiplier (date_year today - car_year car) in
  let disc := Spec.duration_discount (days_between s e + 1) in
  (price YearBasedPricingStrategy == price StandardPricingStrategy * m)%Q
  ∧ (price DurationBasedPricingStrategy
     == price StandardPricingStrategy * (1 - disc))%Q
  ∧ (price CombinedPricingStrategy
     == price YearBasedPricingStrategy * (1 - disc))%Q
  ∧ (price CombinedPricingStrategy
     == price DurationBasedPricingStrategy * m)%Q.
Proof.
  intros price m disc. unfold price.
  rewrite !price_value. unfold year_factor, duration_factor.
  fold m disc. repeat split; ring.
Qed.

(** X3. A price depends on the window only through its length: windows of
    the same number of days cost the same under every strategy. *)
Theorem price_depends_on_length today strategy car s e s' e' :
  e - s = e' - s' →
  calculate_price today strategy car s e
  = calculate_price today strategy car s' e'.
Proof.
  intros H. unfold calculate_price, days_between. by rewrite H.
Qed.

Lemma price_depends_on_length_witness :
  calculate_price Sample.today CombinedPricingStrategy Sample.car
    Sample.today (Sample.today + 9)
  = calculate_price Sample.today CombinedPricingStrategy Sample.car
      (Sample.today + 100) (Sample.today + 109).
Proof.
  apply (price_depends_on_length Sample.today CombinedPricingStrategy
           Sample.car Sample.today (Sample.today + 9)
           (Sample.today + 100) (Sample.today + 109)).
  reflexivity.
Defined.

(** X4. For a price that is not negative and a window that does not end
    before it starts, every strategy charges between 68% and 120% of the
    Standard price, and never a negative amount. *)
Theorem price_bounds today strategy car s e :
  (0 <= dval (daily_price car))%Q → s <= e →
  let standard := dval (calculate_price today StandardPricingStrategy car s e) in
  let price := dval (calculate_price today strategy car s e) in
  (0 <= price)%Q
  ∧ ((68 # 100) * standard <= price)%Q
  ∧ (price <= (12 # 10) * standard)%Q.
Proof.
  intros Hp Hse standard price. subst standard price.
  rewrite !price_value. unfold year_factor at 2 3, duration_factor at 2 3.
  set (base := (dval (daily_price car) * inject_Z (days_between s e + 1))%Q).
  assert (0 <= base)%Q as Hbase.
  { apply Qmult_le_0_compat; [done|].
    unfold days_between. Q_to_Z. lia. }
  pose proof (year_factor_bounds today strategy car) as [Hy1 Hy2].
  pose proof (duration_factor_bounds strategy (days_between s e + 1))
    as [Hd1 Hd2].
  set (y := year_factor today strategy car) in *.
  set (f := duration_factor strategy (days_between s e + 1)) in *.
  assert (0 <= y)%Q by (eapply Qle_trans; [|apply Hy1]; done).
  assert (0 <= f)%Q by (eapply Qle_trans; [|apply Hd1]; done).
  assert ((68 # 100) <= y * f)%Q as Hlo.
  { apply Qle_trans with ((8 # 10) * (85 # 100))%Q; [done|].
    apply Qle_trans with (y * (85 # 100))%Q.
    - by apply Qmult_le_compat_r.
    - rewrite !(Qmult_comm y). by apply Qmult_le_compat_r. }
  assert (y * f <= 12 # 10)%Q as Hhi.
  { apply Qle_trans with (y * 1)%Q.
    - rewrite !(Qmult_comm y). by apply Qmult_le_compat_r.
    - rewrite Qmult_1_r. done. }
  split; [|split].
  - rewrite <- Qmult_assoc. apply Qmult_le_0_compat; [done|].
    by apply Qmult_le_0_compat.
  - rewrite !Qmult_1_r, <- Qmult_assoc, (Qmult_comm (68 # 100)).
    rewrite !(Qmult_comm base). by apply Qmult_le_compat_r.
  - rewrite !Qmult_1_r, <- Qmult_assoc, (Qmult_comm (12 # 10)).
    rewrite !(Qmult_comm base). by apply Qmult_le_compat_r.
Qed.

Lemma price_bounds_witness :
  (0 <= dval (calculate_price Sample.today CombinedPricingStrategy Sample.car
                Sample.today (Sample.today + 9)%Z))%Q.
Proof.
  apply (price_bounds Sample.today CombinedPricingStrategy Sample.car
           Sample.today (Sample.today + 9)).
  - Q_to_Z. lia.
  - unfold Sample.today. lia.
Defined.

Lemma duration_step strategy d :
  1 <= d → d ≠ 29 →
  (inject_Z d * duration_factor strategy d
   <= inject_Z (d + 1) * duration_factor strategy (d + 1))%Q.
Proof.
  intros Hd Hne. unfold duration_factor, Spec.duration_discount.
  destruct strategy; by_brackets; Q_to_Z; lia.
Qed.

Lemma duration_drop strategy :
  strategy = DurationBasedPricingStrategy ∨ strategy = CombinedPricingStrategy →
  (inject_Z 30 * duration_factor strategy 30
   < inject_Z 29 * duration_factor strategy 29)%Q.
Proof. intros [-> | ->]; reflexivity. Qed.

Lemma year_factor_pos today strategy car : (0 < year_factor today strategy car)%Q.
Proof.
  eapply Qlt_le_trans; [|apply year_factor_bounds]. reflexivity.
Qed.

Lemma price_value_split today strategy car s e :
  (dval (calculate_price today strategy car s e) ==
   (inject_Z (days_between s e + 1)
    * duration_factor strategy (days_between s e + 1))
   * (dval (daily_price car) * year_factor today strategy car))%Q.
Proof. rewrite price_value. ring. Qed.

(** X5. One more day never costs less, except from 29 days to 30. For a
    price that is not negative and a window of at least one day that does
    not have exactly 29 days, extending the window by a day does not lower
    the price, under any strategy. *)
Theorem price_monotone_except_29 today strategy car s e :
  (0 <= dval (daily_price car))%Q → s <= e → days_between s e + 1 ≠ 29 →
  (dval (calculate_price today strategy car s e)
   <= dval (calculate_price today strategy car s (e + 1)%Z))%Q.
Proof.
  intros Hp Hse Hne. rewrite !price_value_split.
  replace (days_between s (e + 1) + 1) with (days_between s e + 1 + 1)
    by (unfold days_between; lia).
  apply Qmult_le_compat_r.
  - apply duration_step; [unfold days_between; lia | done].
  - apply Qmult_le_0_compat; [done|].
    apply Qlt_le_weak, year_factor_pos.
Qed.

Lemma price_monotone_except_29_witness :
  (dval (calculate_price Sample.today CombinedPricingStrategy Sample.car
           Sample.today (Sample.today + 12)%Z)
   <= dval (calculate_price Sample.today CombinedPricingStrategy Sample.car
              Sample.today (Sample.today + 12 + 1)%Z))%Q.
Proof.
  apply (price_monotone_except_29 Sample.today CombinedPricingStrategy
           Sample.car Sample.today (Sample.today + 12)).
  - Q_to_Z. lia.
  - unfold Sample.today. lia.
  - unfold days_between, Sample.today. lia.
Defined.

(** X6. The thirtieth day is cheaper than free. Under the two strategies
    with a duration discount and for a positive daily price, a window of
    30 days costs strictly less than the window of 29 days with the same
    start: 30 * 0.85 < 29 * 0.90. *)
Theorem price_drops_at_30_days today strategy car s e :
  strategy = DurationBasedPricingStrategy ∨ strategy = CombinedPricingStrategy →
  (0 < dval (daily_price car))%Q → days_between s e + 1 = 29 →
  (dval (calculate_price today strategy car s (e + 1)%Z)
   < dval (calculate_price today strategy car s e))%Q.
Proof.
  intros Hst Hp Hd. rewrite !price_value_split.
  replace (days_between s (e + 1) + 1) with 30 by (unfold days_between in *; lia).
  rewrite Hd.
  apply Qmult_lt_compat_r.
  - apply Qmult_lt_0_compat; [done | apply year_factor_pos].
  - by apply duration_drop.
Qed.

Lemma price_drops_at_30_days_witness :
  (dval (calculate_price Sample.today CombinedPricingStrategy Sample.car
           Sample.today (Sample.today + 28 + 1)%Z)
   < dval (calculate_price Sample.today CombinedPricingStrategy Sample.car
             Sample.today (Sample.today + 28)%Z))%Q.
Proof.
  apply (price_drops_at_30_days Sample.today CombinedPricingStrategy
           Sample.car Sample.today (Sample.today + 28)).
  - right. reflexivity.
  - Q_to_Z. lia.
  - unfold days_between, Sample.today. lia.
Defined.

(** X7. calculate_price does not look at the order of the two dates. For a
    positive daily price, a window that ends two days or more before it
    starts gets a negative price under every strategy, and one that ends
    the day before it starts a price of zero. *)
Theorem price_of_reversed_window today strategy car s e :
  (0 < dval (daily_price car))%Q → e < s →
  (e = s - 1 → (dval (calculate_price today strategy car s e) == 0)%Q)
  ∧ (e < s - 1 → (dval (calculate_price today strategy car s e) < 0)%Q).
Proof.
  intros Hp Hes. rewrite price_value_split.
  assert (0 < dval (daily_price car) * year_factor today strategy car)%Q
    as Hpos by (apply Qmult_lt_0_compat; [done | apply year_factor_pos]).
  split; intros He.
  - replace (days_between s e + 1) with 0 by (unfold days_between; lia).
    ring.
  - rewrite <- (Qmult_0_l (dval (daily_price car)
                          * year_factor today strategy car)).
    apply Qmult_lt_compat_r; [done|].
    unfold duration_factor, Spec.duration_discount, days_between.
    destruct strategy; by_brackets; Q_to_Z; lia.
Qed.

Lemma price_of_reversed_window_witness :
  (dval (calculate_price Sample.today CombinedPricingStrategy Sample.car
           Sample.today (Sample.today - 5)%Z) < 0)%Q.
Proof.
  apply (price_of_reversed_window Sample.today CombinedPricingStrategy
           Sample.car Sample.today (Sample.today - 5)).
  - Q_to_Z. lia.
  - unfold Sample.today. lia.
  - unfold Sample.today. lia.
Defined.

Lemma price_depends_on_length_aux today strategy car s e s' e' :
  e - s = e' - s' →
  calculate_price today strategy car s e
  = calculate_price today strategy car s' e'.
Proof.
  intros H. unfold calculate_price, days_between. by rewrite H.
Qed.

(** ** More on fines and the refund *)

Lemma damage_multiplier_bounds damage_level :
  (0 <= Spec.damage_multiplier damage_level <= 1 # 2)%Q.
Proof.
  unfold Spec.damage_multiplier.
  repeat match goal with
         | |- context [?a =? ?b] => destruct (Z.eqb_spec a b)
         end; split; Q_to_Z; lia.
Qed.

Lemma late_fine_nonneg late_days : (0 <= Spec.late_fine late_days)%Q.
Proof.
  unfold Spec.late_fine. by_brackets; Q_to_Z; lia.
Qed.

(** X10. What a completion can cost. For a deposit that is not negative, the
    fines are never negative, the damage fine is at most half the deposit
    whatever the level, and the refund lies between zero and the deposit;
    a return that is not late gets at least half the deposit back, and a
    return late by a number of days whose fine reaches the deposit gets
    nothing back. *)
Theorem fines_and_refund_bounds r damage_level late_days :
  (0 <= dval (deposit r))%Q →
  let fines := calculate_total_fines r damage_level late_days in
  let refund := calculate_refund r fines in
  (0 <= dval fines)%Q
  ∧ (dval (calculate_damage_fine r damage_level) <= dval (deposit r) * (1 # 2))%Q
  ∧ (0 <= dval refund <= dval (deposit r))%Q
  ∧ (late_days <= 0 → (dval (deposit r) * (1 # 2) <= dval refund)%Q)
  ∧ ((dval (deposit r) <= inject_Z late_days * 500)%Q → (dval refund == 0)%Q).
Proof.
  intros HD fines refund. subst fines refund.
  pose proof (damage_multiplier_bounds damage_level) as [HM0 HM1].
  pose proof (late_fine_nonneg late_days) as HL.
  assert (dval (calculate_total_fines r damage_level late_days)
          == dval (deposit r) * Spec.damage_multiplier damage_level
             + Spec.late_fine late_days)%Q as HF.
  { unfold calculate_total_fines.
    by rewrite dval_add, damage_fine_value, late_fine_value. }
  pose proof (damage_fine_value r damage_level) as Hdmg.
  set (D := dval (deposit r)) in *.
  set (M := Spec.damage_multiplier damage_level) in *.
  assert (0 <= D * M)%Q as HDM0 by (by apply Qmult_le_0_compat).
  assert (D * M <= D * (1 # 2))%Q as HDM1.
  { rewrite !(Qmult_comm D). by apply Qmult_le_compat_r. }
  rewrite refund_value. fold D. rewrite HF, Hdmg.
  set (L := Spec.late_fine late_days) in *.
  repeat split.
  - lra.
  - done.
  - apply Q.le_max_r.
  - apply Q.max_lub; lra.
  - intros Hld.
    assert (L == 0)%Q as HL0.
    { unfold L, Spec.late_fine. destruct (Z.ltb_spec 0 late_days); [lia|done]. }
    eapply Qle_trans; [|apply Q.le_max_l]. lra.
  - intros Hlate.
    assert (L == inject_Z late_days * 500)%Q as HLv.
    { unfold L, Spec.late_fine. destruct (Z.ltb_spec 0 late_days); [done|].
      assert (inject_Z late_days <= 0)%Q by (Q_to_Z; lia). lra. }
    apply Q.max_r. lra.
Qed.

Lemma fines_and_refund_bounds_witness :
  (dval (deposit Sample.rental) * (1 # 2)
   <= dval (calculate_refund Sample.rental
              (calculate_total_fines Sample.rental 3 0)))%Q.
Proof.
  apply (fines_and_refund_bounds Sample.rental 3 0).
  - Q_to_Z. lia.
  - lia.
Defined.

(** ** More on rental completion *)

Lemma sum_fine_rows r dl ld :
  (sum_amounts (fine_rows r dl ld) == dval (calculate_total_fines r dl ld))%Q.
Proof.
  unfold calculate_total_fines. rewrite dval_add.
  assert (dl <= 0 → (dval (calculate_damage_fine r dl) == 0)%Q) as Hdl.
  { intros H. destruct (decide (dl = 0)) as [->|].
    - rewrite damage_fine_value. unfold Spec.damage_multiplier; simpl. ring.
    - apply damage_fine_out_of_range. lia. }
  assert (ld <= 0 → (dval (calculate_late_fine r ld) == 0)%Q) as Hld.
  { intros H. unfold calculate_late_fine.
    destruct (Z.leb_spec ld 0); [reflexivity|lia]. }
  unfold fine_rows, sum_amounts.
  destruct (Z.ltb_spec 0 dl), (Z.ltb_spec 0 ld); simpl;
    rewrite ?Hdl, ?Hld by done; ring.
Qed.

(** The rows stored: the late fine as it is, the damage fine to the
    nearest cent. *)
Lemma sum_stored_fine_rows r dl ld :
  (sum_amounts (fine_rows r dl ld) - (1 # 200)
   <= sum_amounts (stored_fine <$> fine_rows r dl ld)
   <= sum_amounts (fine_rows r dl ld) + (1 # 200))%Q.
Proof.
  pose proof (quantize2_close (calculate_damage_fine r dl)) as [Hlo Hhi].
  unfold fine_rows, sum_amounts.
  destruct (0 <? dl), (0 <? ld); simpl; rewrite ?stored_late_fine;
    split; lra.
Qed.

(** X11. The Fine rows a completion stores add up to the total_fines it
    returns, to within half a cent: at most two rows, one for damage when
    damage_level > 0 and one for lateness when late_days > 0, appended to
    the fines table, each holding its fine rounded to cents. *)
Theorem completion_fines_add_up today r aed dl ld st car :
  cars st !! car_id r = Some car →
  completion_fits today r car aed dl ld = true →
  ∃ r' st' rows,
    complete_rental today r aed dl ld st
    = (Ok (r', calculate_total_fines r dl ld,
           calculate_refund r (calculate_total_fines r dl ld)), st')
    ∧ fines st' = fines st ++ rows
    ∧ (length rows <= 2)%nat
    ∧ Forall (λ f, fine_rental f = rental_pk r) rows
    ∧ Forall (λ f, fine_amount f = quantize2 (fine_amount f)) rows
    ∧ (dval (calculate_total_fines r dl ld) - (1 # 200)
       <= sum_amounts rows
       <= dval (calculate_total_fines r dl ld) + (1 # 200))%Q.
Proof.
  intros Hcar Hfits.
  rewrite (complete_rental_success _ _ _ _ _ _ _ Hcar Hfits).
  eexists _, _, (stored_fine <$> fine_rows r dl ld).
  split; [reflexivity|]. simpl.
  split; [reflexivity|].
  split; [|split; [|split]].
  - unfold fine_rows. destruct (0 <? dl), (0 <? ld); simpl; lia.
  - unfold fine_rows. destruct (0 <? dl), (0 <? ld); simpl;
      repeat constructor.
  - unfold fine_rows. destruct (0 <? dl), (0 <? ld); simpl;
      repeat constructor; simpl; by rewrite quantize2_idempotent.
  - rewrite <- sum_fine_rows. apply sum_stored_fine_rows.
Qed.

Lemma completion_fines_add_up_witness :
  ∃ r' st' rows,
    complete_rental Sample.today Sample.odd_rental (Sample.today + 9) 1 3
      Sample.odd_store
    = (Ok (r', lit 1623456 3, lit 0 2), st')
    ∧ fines st' = fines Sample.odd_store ++ rows
    ∧ ((1623456 # 1000) - (1 # 200) <= sum_amounts rows
       <= (1623456 # 1000) + (1 # 200))%Q.
Proof.
  destruct (completion_fines_add_up Sample.today Sample.odd_rental
              (Sample.today + 9) 1 3 Sample.odd_store
              (set_car_status rented Sample.car) eq_refl eq_refl)
    as (r' & st' & rows & H1 & H2 & _ & _ & _ & H3).
  exists r', st', rows. split; [exact H1|]. split; [exact H2|].
  exact H3.
Defined.

(** X12. complete_rental does not look at the rental's status. For a car
    row in column format and a completion that fits its columns,
    completing the rental it has just completed succeeds again with the
    same fines and the same refund: the rental row stays as the first
    completion left it, while the Fine rows and the refund payment are
    stored a second time. *)
Theorem complete_rental_twice today r aed dl ld st car :
  cars st !! car_id r = Some car → car_pk car = car_id r →
  Car_row car = car →
  completion_fits today r car aed dl ld = true →
  let fines_due := calculate_total_fines r dl ld in
  let refund := calculate_refund r fines_due in
  let refunds :=
    if is_positive refund
    then [mkPayment (rental_pk r) refund_payment (quantize2 refund)]
    else [] in
  let rows := stored_fine <$> fine_rows r dl ld in
  ∃ r1 st1 st2,
    complete_rental today r aed dl ld st = (Ok (r1, fines_due, refund), st1)
    ∧ status r1 = completed
    ∧ complete_rental today r1 aed dl ld st1 = (Ok (r1, fines_due, refund), st2)
    ∧ rentals st2 = rentals st1
    ∧ cars st2 = cars st1
    ∧ payments st2 = (payments st ++ refunds) ++ refunds
    ∧ fines st2 = (fines st ++ rows) ++ rows.
Proof.
  intros Hcar Hpk Hrow Hfits fines_due refund refunds rows.
  rewrite (complete_rental_success _ _ _ _ _ _ _ Hcar Hfits).
  eexists _, _, _. split; [reflexivity|]. split; [reflexivity|].
  set (r1 := completed_rental today r car aed dl ld).
  set (st1 := mkStore _ _ _ _).
  assert (Car_row (set_car_status available car) = set_car_status available car)
    as Hrow1 by (by rewrite Car_row_status, Hrow).
  assert (cars st1 !! car_id r1 = Some (set_car_status available car)) as Hcar1.
  { unfold st1, r1; simpl. rewrite Hpk, Hrow1. apply lookup_insert_eq. }
  assert (completion_fits today r1 (set_car_status available car) aed dl ld
          = true) as Hfits1 by exact Hfits.
  rewrite (complete_rental_success _ _ _ _ _ _ _ Hcar1 Hfits1).
  split; [reflexivity|]. simpl.
  split; [apply insert_insert_eq|].
  split; [apply insert_insert_eq|].
  split; reflexivity.
Qed.

Lemma complete_rental_twice_witness :
  ∃ r1 st1 st2,
    complete_rental Sample.today Sample.rental (Sample.today + 9) 2 3
      Sample.rented_store
    = (Ok (r1, lit 2400000 3, lit 600000 3), st1)
    ∧ complete_rental Sample.today r1 (Sample.today + 9) 2 3 st1
      = (Ok (r1, lit 2400000 3, lit 600000 3), st2)
    ∧ length (payments st2) = 3%nat.
Proof.
  destruct (complete_rental_twice Sample.today Sample.rental
              (Sample.today + 9) 2 3 Sample.rented_store
              (set_car_status rented Sample.car)
              eq_refl eq_refl eq_refl eq_refl)
    as (r1 & st1 & st2 & H1 & _ & H2 & _ & _ & H3 & _).
  exists r1, st1, st2. split; [exact H1|]. split; [exact H2|].
  rewrite H3. reflexivity.
Defined.

(** ** More on rental creation *)

Lemma calculate_deposit_Ok today car s e :
  valid_date today → today <= s → s < e → e < MAXORDINAL →
  ∃ dep, calculate_deposit today car (days_between s e + 1) = Ok dep
    ∧ (dval dep ==
       (3 # 10) * dval (calculate_price today CombinedPricingStrategy car
                          s (e + 1)%Z))%Q.
Proof.
  unfold valid_date, MINORDINAL, days_between. intros Ht Hts Hse He.
  unfold calculate_deposit.
  rewrite date_add_Ok by (unfold MAXORDINAL in *; lia).
  rewrite get_default_strategy_combined.
  eexists. split; [reflexivity|]. rewrite dval_mul.
  rewrite (price_depends_on_length_aux today CombinedPricingStrategy car
             today (today + (e - s + 1)) s (e + 1)) by lia.
  assert (dval (lit 3 1) == 3 # 10)%Q as -> by reflexivity. ring.
Qed.

Lemma create_rental_rejects today client car s e name st :
  car_status car = available →
  (s < today →
   create_rental today client car s e name st
   = (Raise (ValueError msg_start_in_past), st))
  ∧ (today <= s → e <= s →
     create_rental today client car s e name st
     = (Raise (ValueError msg_end_not_after_start), st)).
Proof.
  intros Hav.
  unfold create_rental, atomic. rewrite create_rental_body_outcome.
  unfold is_available. rewrite bool_decide_eq_true_2 by done. simpl.
  split.
  - intros ?. destruct (Z.ltb_spec s today); [done|lia].
  - intros ? ?. destruct (Z.ltb_spec s today); [lia|].
    destruct (Z.leb_spec e s); [done|lia].
Qed.

(** X17. create_rental against validate_rental_dates. For an available car,
    a window that ends before the last day of the calendar and amounts
    that fit their columns, creation succeeds whenever the dates validate,
    and fails with the very message of the validation when the start is
    in the past or the end is not after the start; a window of more than
    365 days, which the validation rejects, is created all the same: the
    factory has no maximum. *)
Theorem create_rental_and_validation today client car s e name st :
  car_status car = available → valid_date today → e < MAXORDINAL →
  booking_fits today car s e name = true →
  match validate_rental_dates today s e with
  | (true, _) | (false, msg_max_duration _) =>
      ∃ r st', create_rental today client car s e name st = (Ok r, st')
  | (false, m) =>
      create_rental today client car s e name st = (Raise (ValueError m), st)
  end.
Proof.
  intros Hav Ht He Hfits.
  destruct (create_rental_rejects today client car s e name st Hav)
    as [Hpast Hend].
  unfold validate_rental_dates.
  destruct (Z.ltb_spec s today) as [|Hts]; [by apply Hpast|].
  destruct (Z.leb_spec e s) as [|Hse]; [by apply Hend|].
  destruct (calculate_deposit_Ok today car s e Ht Hts Hse He) as (dep & Hdep & _).
  pose proof (create_rental_success today client car s e name st dep
                Hav Hts Hse Hdep Hfits) as Hok. simpl in Hok.
  destruct (_ >? _); [eauto|].
  destruct (Z.ltb_spec (days_between s e) 1); [unfold days_between in *; lia|].
  eauto.
Qed.

Lemma create_rental_and_validation_witness :
  ∃ r st',
    create_rental Sample.today 7 Sample.car Sample.today (Sample.today + 400)
      "combined" Sample.store = (Ok r, st').
Proof.
  apply (create_rental_and_validation Sample.today 7 Sample.car
           Sample.today (Sample.today + 400) "combined" Sample.store).
  - reflexivity.
  - unfold valid_date, MINORDINAL, MAXORDINAL, Sample.today. lia.
  - unfold MAXORDINAL, Sample.today. lia.
  - reflexivity.
Defined.



Lemma set_car_status_available car :
  car_status car = available → set_car_status available car = car.
Proof. destruct car; simpl; intros ->; reflexivity. Qed.

Lemma deposit_positive today car s e dep :
  (0 < dval (daily_price car))%Q → s < e →
  (dval dep ==
   (3 # 10) * dval (calculate_price today CombinedPricingStrategy car
                      s (e + 1)%Z))%Q →
  (0 < dval dep)%Q.
Proof.
  intros Hp Hse ->. rewrite price_value_split.
  apply Qmult_lt_0_compat; [reflexivity|].
  apply Qmult_lt_0_compat.
  - apply Qmult_lt_0_compat.
    + unfold days_between. Q_to_Z. lia.
    + eapply Qlt_le_trans; [|apply duration_factor_bounds]. reflexivity.
  - apply Qmult_lt_0_compat; [done | apply year_factor_pos].
Qed.



(** ** More on the status sweep *)

Ltac in_list :=
  rewrite ?elem_of_cons, ?elem_of_nil in *; intuition congruence.

(** [Rental.is_overdue] and the second queryset of the sweep are the same
    test. *)
Lemma is_overdue_queryset today r : is_overdue today r = overdue_rentals today r.
Proof. unfold is_overdue, overdue_rentals. by rewrite Z.gtb_ltb. Qed.

Lemma sweep_lookup today st k :
  rentals (update_overdue_rentals today st).2 !! k
  = Spec.swept today <$> rentals st !! k.
Proof. rewrite update_overdue_rentals_result. simpl. apply lookup_fmap. Qed.

(** X20. The sweep changes statuses and nothing else. It keeps the keys of
    the rentals table, leaves every field of a rental but its status as it
    was, never touches a completed, overdue or cancelled rental, and moves
    a status only forward: pending to active or overdue, active to
    overdue. *)
Theorem sweep_changes_status_only today st k :
  let st' := (update_overdue_rentals today st).2 in
  match rentals st !! k with
  | None => rentals st' !! k = None
  | Some r =>
      ∃ r', rentals st' !! k = Some r'
        ∧ set_status (status r) r' = r
        ∧ (status r ∈ [completed; overdue; cancelled] → r' = r)
        ∧ (status r' = status r
           ∨ (status r = pending ∧ start_date r <= today
              ∧ status r' ∈ [active; overdue])
           ∨ (status r = active ∧ expected_end_date r < today
              ∧ status r' = overdue))
  end.
Proof.
  intros st'. subst st'. rewrite sweep_lookup.
  destruct (rentals st !! k) as [r|]; [|done]. simpl.
  exists (Spec.swept today r). split; [done|].
  unfold Spec.swept, pending_to_active, overdue_rentals.
  destruct r as [? ? ? sd ed ? ? ? ? stat ? ?]; simpl.
  destruct stat, (Z.leb_spec sd today), (Z.ltb_spec ed today); simpl;
    (split; [reflexivity|]); (split; [try done; in_list|]);
    first [ by left | right; left; repeat split; [done|in_list]
          | right; right; done ].
Qed.

(** X21. What the sweep guarantees to the listings that run after it. In
    the store a sweep leaves, no rental is overdue in the sense of
    Rental.is_overdue, and the active rentals of get_active_rentals are
    exactly the rentals with status active that have started; each of
    them ends today or later. *)
Theorem active_listing_after_sweep today st k r :
  let st' := (update_overdue_rentals today st).2 in
  rentals st' !! k = Some r →
  is_overdue today r = false
  ∧ (get_active_rentals today st' !! k = Some r
     ↔ status r = active ∧ start_date r <= today)
  ∧ (get_active_rentals today st' !! k = Some r → today <= expected_end_date r).
Proof.
  intros st' Hk. subst st'. rewrite sweep_lookup in Hk.
  apply fmap_Some in Hk as (r0 & Hr0 & ->).
  pose proof (swept_not_pending_to_active today r0) as Hnp.
  pose proof (swept_not_overdue_rentals today r0) as Hno.
  set (r := Spec.swept today r0) in *.
  assert (rentals (update_overdue_rentals today st).2 !! k = Some r) as Hk'
    by (rewrite sweep_lookup, Hr0; done).
  split; [by rewrite is_overdue_queryset|].
  unfold get_active_rentals. rewrite !map_lookup_filter_Some. simpl.
  unfold status_in, pending_to_active, overdue_rentals in *.
  split.
  - split.
    + intros [_ Hf]. apply andb_true_iff in Hf as [Hs Hd].
      apply bool_decide_eq_true in Hs. apply Z.leb_le in Hd.
      split; [|done].
      destruct (decide (status r = pending)) as [Hp|Hp]; [|in_list].
      rewrite bool_decide_eq_true_2 in Hnp by done.
      apply Z.leb_le in Hd. rewrite Hd in Hnp. done.
    + intros [Hs Hd]. split; [done|].
      apply andb_true_iff. split; [|by apply Z.leb_le].
      apply bool_decide_eq_true. rewrite Hs. in_list.
  - intros [_ Hf]. apply andb_true_iff in Hf as [Hs Hd].
    apply bool_decide_eq_true in Hs.
    destruct (decide (status r = active)) as [Ha|Ha].
    + rewrite bool_decide_eq_true_2 in Hno by done. simpl in Hno.
      apply Z.ltb_ge in Hno. done.
    + assert (status r = pending) as Hp by in_list.
      rewrite bool_decide_eq_true_2, Hd in Hnp by done. done.
Qed.

Lemma active_listing_after_sweep_witness :
  is_overdue Sample.today (set_status overdue Sample.stale_rental) = false.
Proof.
  apply (active_listing_after_sweep Sample.today Sample.stale_store 1
           (set_status overdue Sample.stale_rental)).
  vm_compute. reflexivity.
Defined.

Lemma count_rows_insert_fresh P k r (m : gmap Z Rental) :
  m !! k = None → P r = false →
  count_rows P (<[k := r]> m) = count_rows P m.
Proof.
  intros Hk HP. unfold count_rows. f_equal.
  apply map_filter_insert_not'; simpl.
  - rewrite HP. discriminate.
  - intros y Hy. congruence.
Qed.

Lemma created_rental_not_swept today client car s e name dep pk :
  today <= s → s < e →
  let r := created_rental today client car s e name dep pk in
  pending_to_active today r = false ∧ overdue_rentals today r = false.
Proof.
  intros Hts Hse. simpl. unfold pending_to_active, overdue_rentals,
    created_rental; simpl.
  destruct (Z.leb_spec s today); simpl.
  - split; [reflexivity|]. apply Z.ltb_ge. lia.
  - split; [|reflexivity]. reflexivity.
Qed.



(** ** Availability of cars *)

Lemma is_car_busy_true car s e st :
  is_car_busy_for_dates car s e st = true ↔
  ∃ k r, rentals st !! k = Some r ∧ car_id r = car_pk car
         ∧ overlaps_live s e r = true.
Proof.
  unfold is_car_busy_for_dates. rewrite bool_decide_eq_true. split.
  - intros (k & r & Hk)%map_choose.
    apply map_lookup_filter_Some in Hk as (Hk & Hc & Ho). eauto.
  - intros (k & r & Hk & Hc & Ho) Hempty.
    assert (filter (λ kr : Z * Rental,
                      car_id kr.2 = car_pk car ∧ overlaps_live s e kr.2 = true)
                   (rentals st) !! k = Some r) as Hf
      by (apply map_lookup_filter_Some; done).
    rewrite Hempty, lookup_empty in Hf. discriminate.
Qed.

Lemma available_for_dates_lookup s e st k car :
  get_cars_available_for_dates s e st !! k = Some car ↔
  cars st !! k = Some car
  ∧ ¬ ∃ i r, rentals st !! i = Some r ∧ car_id r = k
             ∧ overlaps_live s e r = true.
Proof.
  unfold get_cars_available_for_dates.
  rewrite map_lookup_filter_Some. simpl.
  rewrite elem_of_map_img. split; intros [Hc Hn]; (split; [done|]).
  - intros (i & r & Hi & Hk & Ho). apply Hn. exists i.
    rewrite lookup_fmap, (proj2 (map_lookup_filter_Some _ _ i r)); [|done].
    simpl. by rewrite Hk.
  - intros (i & Hi). apply Hn.
    rewrite lookup_fmap in Hi. apply fmap_Some in Hi as (r & Hr & ->).
    apply map_lookup_filter_Some in Hr as [Hr Ho]. eauto.
Qed.

(** X23. The two availability queries agree. A stored car is among the cars
    get_cars_available_for_dates returns for a window exactly when
    is_car_busy_for_dates says it is not busy for that window, whatever
    the car's own status is; and every car returned is a row of the cars
    table. *)
Theorem availability_queries_agree s e st car :
  cars st !! car_pk car = Some car →
  (get_cars_available_for_dates s e st !! car_pk car = Some car
   ↔ is_car_busy_for_dates car s e st = false)
  ∧ get_cars_available_for_dates s e st ⊆ cars st.
Proof.
  intros Hcar. split.
  - rewrite available_for_dates_lookup, <- not_true_iff_false, is_car_busy_true.
    tauto.
  - apply map_filter_subseteq.
Qed.

Lemma availability_queries_agree_witness :
  is_car_busy_for_dates (set_car_status rented Sample.car)
    Sample.today (Sample.today + 3) Sample.rented_store = true.
Proof.
  destruct (availability_queries_agree Sample.today (Sample.today + 3)
              Sample.rented_store (set_car_status rented Sample.car) eq_refl)
    as [[_ H] _].
  apply not_false_iff_true. intros Hf. apply H in Hf.
  apply available_for_dates_lookup in Hf as [_ Hn]. apply Hn.
  exists 1, Sample.rental. repeat split.
Defined.



(** X25. Returning a car's only rental frees the car. When no other rental
    in the store names the car, a complete_rental that fits its columns
    leaves the car not busy for any window and listed, as the row it
    saved, by get_available_cars and by get_cars_available_for_dates. *)
Theorem completion_frees_car today r aed dl ld st car s e :
  cars st !! car_id r = Some car → car_pk car = car_id r →
  completion_fits today r car aed dl ld = true →
  (∀ k r0, rentals st !! k = Some r0 → k ≠ rental_pk r →
           car_id r0 ≠ car_id r) →
  ∃ out st',
    complete_rental today r aed dl ld st = (Ok out, st')
    ∧ is_car_busy_for_dates car s e st' = false
    ∧ get_available_cars st' !! car_pk car
      = Some (Car_row (set_car_status available car))
    ∧ get_cars_available_for_dates s e st' !! car_pk car
      = Some (Car_row (set_car_status available car)).
Proof.
  intros Hcar Hpk Hfits Honly.
  pose proof (complete_rental_success today r aed dl ld st car Hcar Hfits)
    as H1.
  simpl in H1.
  set (r' := completed_rental _ _ _ _ _ _) in H1.
  set (st' := mkStore _ _ _ _) in H1.
  assert (¬ ∃ i r0, rentals st' !! i = Some r0 ∧ car_id r0 = car_pk car
                    ∧ overlaps_live s e r0 = true) as Hfree.
  { intros (i & r0 & Hi & Hc & Ho). unfold st' in Hi; simpl in Hi.
    destruct (decide (i = rental_pk r)) as [->|Hne].
    - rewrite lookup_insert_eq in Hi. injection Hi as <-.
      unfold overlaps_live, status_in in Ho; simpl in Ho.
      try rewrite bool_decide_eq_false_2 in Ho by in_list. done.
    - rewrite lookup_insert_ne in Hi by done.
      apply (Honly i r0 Hi Hne). congruence. }
  assert (cars st' !! car_pk car
          = Some (Car_row (set_car_status available car))) as Hc'
    by apply lookup_insert_eq.
  eexists _, st'. split; [exact H1|]. split; [|split].
  - apply not_true_iff_false. rewrite is_car_busy_true. exact Hfree.
  - unfold get_available_cars. by apply map_lookup_filter_Some.
  - by apply available_for_dates_lookup.
Qed.

Lemma completion_frees_car_witness :
  ∃ out st',
    complete_rental Sample.today Sample.rental (Sample.today + 9) 0 0
      Sample.rented_store = (Ok out, st')
    ∧ is_car_busy_for_dates (set_car_status rented Sample.car)
        Sample.today (Sample.today + 30) st' = false.
Proof.
  destruct (completion_frees_car Sample.today Sample.rental (Sample.today + 9)
              0 0 Sample.rented_store (set_car_status rented Sample.car)
              Sample.today (Sample.today + 30) eq_refl eq_refl eq_refl)
    as (out & st' & H1 & H2 & _).
  - intros k r0 Hk Hne.
    change (rentals Sample.rented_store) with
      ({[ 1 := Sample.rental ]} : gmap Z Rental) in Hk.
    apply lookup_singleton_Some in Hk as [<- _]. done.
  - exists out, st'. split; assumption.
Defined.

(** ** Revenue by period *)

Lemma add_revenue_lookup m r (d : Z) :
  add_revenue m r !! d =
    if decide (d = end_day r)
    then Some (default (lit 0 2) (m !! d) + total_cost r)%dec
    else m !! d.
Proof.
  unfold add_revenue. case_decide as Hd.
  - subst d. case_bool_decide as Hm.
    + rewrite lookup_insert_eq, lookup_total_insert_eq, Hm. done.
    + destruct (m !! end_day r) as [v|] eqn:Hv; [|done].
      rewrite lookup_insert_eq, (lookup_total_correct _ _ _ Hv). done.
  - case_bool_decide; by rewrite ?lookup_insert_ne by done.
Qed.

Lemma sum_costs_app l1 l2 :
  (sum_costs (l1 ++ l2) == sum_costs l1 + sum_costs l2)%Q.
Proof.
  induction l1 as [|r l1 IH]; simpl.
  - ring.
  - rewrite IH. ring.
Qed.

(** What the loop has put under a day: nothing when no rental ends on it,
    else the total cost of the rentals that do. *)
Lemma revenue_by_day_lookup rows (d : Z) :
  let m := foldl add_revenue ∅ rows in
  let same := filter (λ r, end_day r = d) rows in
  (m !! d = None ↔ same = [])
  ∧ (∀ v, m !! d = Some v → (dval v == sum_costs same)%Q).
Proof.
  induction rows as [|r rows IH] using rev_ind; simpl.
  { split; [done|]. intros v. rewrite lookup_empty. done. }
  destruct IH as [IHn IHv].
  rewrite foldl_snoc, filter_app, add_revenue_lookup.
  case_decide as Hd.
  - rewrite filter_cons_True by done. split.
    + split; [done|]. intros Hnil. by apply app_nil in Hnil as [_ ?].
    + intros v [= <-]. rewrite dval_add, sum_costs_app. simpl.
      destruct (foldl add_revenue ∅ rows !! d) as [v0|] eqn:Hv0; simpl.
      * rewrite (IHv v0) by done. ring.
      * rewrite (proj1 IHn) by done. rewrite dval_zero. simpl. ring.
  - rewrite filter_cons_False, filter_nil, app_nil_r by (intros ?; done).
    done.
Qed.

Lemma strictly_sorted (l : list (Z * Decimal)) :
  NoDup l → (∀ a b, a ∈ l → b ∈ l → a.1 = b.1 → a = b) →
  StronglySorted by_day l →
  StronglySorted (λ a b : Z * Decimal, a.1 < b.1) l.
Proof.
  intros Hnd Huniq Hs. induction Hs as [|a l Hs IH Hall]; constructor.
  - apply IH.
    + by apply NoDup_cons in Hnd as [_ ?].
    + intros x y Hx Hy. apply Huniq; by apply elem_of_cons; right.
  - apply NoDup_cons in Hnd as [Hna _].
    apply Forall_forall. intros b Hb.
    pose proof (proj1 (Forall_forall _ _) Hall b Hb) as Hle.
    unfold by_day in Hle.
    destruct (decide (a.1 = b.1)) as [Heq|]; [|lia].
    assert (a = b) as -> by (apply Huniq; [left|by right|done]).
    done.
Qed.

#[local] Instance by_day_trans : Transitive by_day.
Proof. intros a b c. unfold by_day. lia. Qed.

#[local] Instance by_day_total : Total by_day.
Proof. intros a b. unfold by_day. lia. Qed.

Lemma sorted_items_spec (m : gmap Z Decimal) :
  StronglySorted (λ a b : Z * Decimal, a.1 < b.1) (sorted_items m)
  ∧ ∀ d v, (d, v) ∈ sorted_items m ↔ m !! d = Some v.
Proof.
  unfold sorted_items.
  assert (∀ x, x ∈ merge_sort by_day (map_to_list m) ↔ x ∈ map_to_list m)
    as Hin by (intros x; by rewrite merge_sort_Permutation).
  split.
  - apply strictly_sorted.
    + rewrite merge_sort_Permutation. apply NoDup_map_to_list.
    + intros [d v] [d' v'] Ha Hb Heq. simpl in Heq. subst d'.
      apply Hin, elem_of_map_to_list in Ha.
      apply Hin, elem_of_map_to_list in Hb. congruence.
    + apply StronglySorted_merge_sort; apply _.
  - intros d v. rewrite Hin. apply elem_of_map_to_list.
Qed.

Lemma ended_in_period_range s e r :
  ended_in_period s e r = true →
  status r = completed ∧ s <= end_day r <= e.
Proof.
  unfold ended_in_period, end_day.
  intros [Hs Hd]%andb_true_iff. apply bool_decide_eq_true in Hs.
  split; [done|].
  destruct (actual_end_date r); simpl;
    apply andb_true_iff in Hd as [H1 H2];
    rewrite Z.geb_leb in H1; apply Z.leb_le in H1, H2; done.
Qed.

(** X26. The revenue report. get_revenue_by_period returns one pair per day
    on which a completed rental of the period ended, in strictly
    increasing order of the days: each day lies in the period and carries
    the total cost of the completed rentals that ended on it, and every
    such rental has its day in the report. *)
Theorem revenue_by_period_spec s e rows :
  let out := get_revenue_by_period s e rows in
  let matched := filter (λ r, ended_in_period s e r = true) rows in
  StronglySorted (λ a b : Z * Decimal, a.1 < b.1) out
  ∧ (∀ day amount, (day, amount) ∈ out →
       s <= day <= e
       ∧ (dval amount
          == sum_costs (filter (λ r, end_day r = day) matched))%Q
       ∧ ∃ r, r ∈ matched ∧ end_day r = day)
  ∧ (∀ r, r ∈ matched → ∃ amount, (end_day r, amount) ∈ out).
Proof.
  intros out matched. subst out matched. unfold get_revenue_by_period.
  set (matched := filter _ rows).
  destruct (sorted_items_spec (foldl add_revenue ∅ matched)) as [Hsorted Hin].
  split; [exact Hsorted|]. split.
  - intros day amount Hday. apply Hin in Hday.
    destruct (revenue_by_day_lookup matched day) as [Hn Hv].
    assert (∃ r, r ∈ matched ∧ end_day r = day) as (r & Hr & Hd).
    { remember (filter (λ r, end_day r = day) matched) as same eqn:Hf.
      destruct same as [|r l].
      - pose proof (proj2 Hn eq_refl) as Hnone.
        rewrite Hnone in Hday. discriminate.
      - exists r. assert (r ∈ filter (λ r, end_day r = day) matched) as Hr
          by (rewrite <- Hf; left).
        apply list_elem_of_filter in Hr as [? ?]. done. }
    split; [|split; [by apply Hv | eauto]].
    apply list_elem_of_filter in Hr as [Hp _].
    apply ended_in_period_range in Hp as [_ Hp]. by rewrite <- Hd.
  - intros r Hr.
    destruct (revenue_by_day_lookup matched (end_day r)) as [Hn _].
    destruct (foldl add_revenue ∅ matched !! end_day r) as [v|] eqn:Hv.
    + exists v. by apply Hin.
    + pose proof (proj1 Hn eq_refl) as Hnil.
      assert (r ∈ filter (λ r0, end_day r0 = end_day r) matched) as Hf
        by (apply list_elem_of_filter; done).
      rewrite Hnil in Hf. by apply elem_of_nil in Hf.
Qed.

(** Two completed rentals returned on the same day and one returned a day
    later, for 100.00, 50.00 and 25.00. *)
Example revenue_by_period_sample :
  let r1 := set_total_cost (lit 10000 2)
              (set_status completed (set_return 105 0 0 Sample.rental)) in
  let r2 := set_total_cost (lit 5000 2) r1 in
  let r3 := set_total_cost (lit 2500 2)
              (set_status completed (set_return 106 0 0 Sample.rental)) in
  get_revenue_by_period 100 110 [r3; r1; Sample.rental; r2]
  = [(105, lit 15000 2); (106, lit 2500 2)].
Proof. vm_compute. reflexivity. Qed.

(** ** Instances of the lemmas above *)

Lemma calculate_price_within_precision_witness :
  Z.abs (coeff (calculate_price Sample.today CombinedPricingStrategy Sample.car
                  Sample.today (Sample.today + 9))) < 10 ^ 28.
Proof.
  apply (calculate_price_within_precision Sample.today CombinedPricingStrategy
           Sample.car Sample.today (Sample.today + 9)).
  - simpl. lia.
  - unfold valid_date, MINORDINAL, MAXORDINAL, Sample.today. lia.
  - unfold valid_date, MINORDINAL, MAXORDINAL, Sample.today. lia.
Defined.

Lemma calculate_deposit_value_witness :
  ∃ d, calculate_deposit Sample.today Sample.car 10 = Ok d
       ∧ d = (calculate_price Sample.today CombinedPricingStrategy Sample.car
                Sample.today (Sample.today + 10)%Z * lit 3 1)%dec.
Proof.
  destruct (calculate_deposit_value Sample.today Sample.car 10)
    as (d & H1 & H2 & _);
    try (unfold valid_date, MINORDINAL, MAXORDINAL, Sample.today; lia).
  exists d. split; assumption.
Defined.


Lemma complete_rental_fines_witness :
  ∃ r' st',
    complete_rental Sample.today Sample.odd_rental (Sample.today + 9) 1 3
      Sample.odd_store
    = (Ok (r', lit 1623456 3, lit 0 2), st')
    ∧ Forall (λ f, (1 # 100 <= dval (fine_amount f))%Q)
             (stored_fine <$> fine_rows Sample.odd_rental 1 3).
Proof.
  destruct (complete_rental_fines Sample.today Sample.odd_rental
              (Sample.today + 9) 1 3 Sample.odd_store
              (set_car_status rented Sample.car) eq_refl eq_refl)
    as (r' & st' & H1 & _ & _ & H2).
  exists r', st'. split; [exact H1|]. apply H2.
  - Q_to_Z. lia.
  - lia.
Defined.

Lemma validate_rental_dates_inclusive_witness :
  validate_rental_dates Sample.today Sample.today (Sample.today + 366)
  = (false, msg_max_duration 365).
Proof.
  destruct (validate_rental_dates_inclusive Sample.today Sample.today
              (Sample.today + 366)) as (_ & _ & _ & H).
  apply H; unfold days_between; lia.
Defined.
